(** * Hug0x0/ui: heatmap chart component and theme configuration

    A shallow embedding of
      - the theme/colour configuration module (CHART_COLORS, getColorsByTheme,
        COLORS, getThemeColors) and the AppThemes enum,
      - the heatmap component HeatmapAprChart.tsx: the default data generator
        generateHeatmapData, the memoised matrix builder heatmapData, the cell
        label and tooltip formatters, and the polling effect (fetchData, the
        isCancelled flag, the interval timer and the effect clean-up).

    Conventions.
      - A JavaScript [number] is NaN, an infinity, or a finite number given
        by its exact rational value ([Qc]); integers enter through [Int]. The
        code only compares and prints cell values, so the two zeros are not
        told apart. The type has more values than there are doubles; what
        holds for all of them holds for the doubles.
      - The template literal [`${v}`] prints a safe integer (magnitude at
        most 2^53 - 1) as its decimal numeral, stdpp's [pretty] on [Z]; the
        digits of any other finite number are those of the engine
        ([engineDigits], a parameter of the formatters).
      - Reading an array out of range gives [undefined] ([JUndefined]);
        reading a property of [undefined] throws a TypeError ([Throw]).
      - The React effect is modelled as a transition system over an explicit
        store of effect closures, browser timers and in-flight requests. *)

From Stdlib Require Import ZArith Ascii QArith Qcanon.
From stdpp Require Import base list strings pretty gmap.

Local Open Scope string_scope.
Local Open Scope nat_scope.
Local Open Scope list_scope.

(* ===================================================================== *)
(** ** Enumerations (enums/app.enum.ts)                                   *)
(* ===================================================================== *)

Inductive AppThemes := LIGHT | DARK | SYSTEM.

(** The string value of each enum member. *)
Definition AppThemes_value (t : AppThemes) : string :=
  match t with
  | LIGHT => "light"
  | DARK => "dark"
  | SYSTEM => "system"
  end.

(* ===================================================================== *)
(** ** Theme and colour configuration                                     *)
(* ===================================================================== *)

Module ChartColors.
Record t := mk {
  text : string;
  axis : string;
  line : string;
  tooltipBackground : string;
  hyperEvmLp : string;
  hyperEvmBalances : string;
  hyperCorePerp : string;
  hyperCoreSpot : string;
  heatmapGradient : list string;
}.
End ChartColors.

Module ThemeColors.
Record t := mk {
  background : string;
  backgroundOpposite : string;
  primary : string;
  default : string;
  hyperEvmLp : string;
  hyperEvmBalances : string;
  hyperCorePerp : string;
  hyperCoreSpot : string;
  charts : ChartColors.t;
}.
End ThemeColors.

(** The literal union ['light' | 'dark'] that keys CHART_COLORS. *)
Inductive ModeKey := mode_light | mode_dark.

Definition ModeKey_eqb (a b : ModeKey) : bool :=
  match a, b with
  | mode_light, mode_light | mode_dark, mode_dark => true
  | _, _ => false
  end.

(** [CHART_COLORS[mode]] *)
Definition CHART_COLORS (mode : ModeKey) : ChartColors.t :=
  match mode with
  | mode_light =>
      {| ChartColors.text := "#434651";
         ChartColors.axis := "rgba(46, 49, 60, 0.1)";
         ChartColors.line := "rgba(46, 49, 60, 0.2)";
         ChartColors.tooltipBackground := "rgba(255, 255, 255, 0.98)";
         ChartColors.hyperEvmLp := "#3333ff";
         ChartColors.hyperEvmBalances := "#47b8b8";
         ChartColors.hyperCorePerp := "#ff3366";
         ChartColors.hyperCoreSpot := "#ff9933";
         ChartColors.heatmapGradient :=
           [ "#dcfce7"; "#fef3c7"; "#fed7aa"; "#fecaca"; "#86efac";
             "#fde047"; "#fb923c"; "#f87171"; "#dc2626" ] |}
  | mode_dark =>
      {| ChartColors.text := "#e6e8ef";
         ChartColors.axis := "rgba(209, 212, 220, 0.4)";
         ChartColors.line := "rgba(209, 212, 220, 0.2)";
         ChartColors.tooltipBackground := "rgba(20, 30, 45, 0.99)";
         ChartColors.hyperEvmLp := "#6666ff";
         ChartColors.hyperEvmBalances := "#47d4e6";
         ChartColors.hyperCorePerp := "#ff6680";
         ChartColors.hyperCoreSpot := "#ffaa4d";
         ChartColors.heatmapGradient :=
           [ "#14532d"; "#713f12"; "#9a3412"; "#991b1b"; "#16a34a";
             "#ca8a04"; "#ea580c"; "#dc2626"; "#b91c1c" ] |}
  end.

Definition getColorsByTheme (isDark : bool) : ThemeColors.t :=
  let mode := if isDark then mode_dark else mode_light in
  let chartColors := CHART_COLORS mode in
  {| ThemeColors.background :=
       if ModeKey_eqb mode mode_dark then "#0f1a1f" else "#f6fefd";
     ThemeColors.backgroundOpposite :=
       if ModeKey_eqb mode mode_dark then "#f6fefd" else "#0f1a1f";
     ThemeColors.primary := "#22ab94";
     ThemeColors.default :=
       if ModeKey_eqb mode mode_dark then "#d1d4dc" else "#2e313c";
     ThemeColors.hyperEvmLp := ChartColors.hyperEvmLp chartColors;
     ThemeColors.hyperEvmBalances := ChartColors.hyperEvmBalances chartColors;
     ThemeColors.hyperCorePerp := ChartColors.hyperCorePerp chartColors;
     ThemeColors.hyperCoreSpot := ChartColors.hyperCoreSpot chartColors;
     ThemeColors.charts := chartColors |}.

Definition lightColors : ThemeColors.t := getColorsByTheme false.
Definition darkColors : ThemeColors.t := getColorsByTheme true.

Module ThemeConfig.
Record t := mk { light : ThemeColors.t; dark : ThemeColors.t }.
End ThemeConfig.

Definition COLORS : ThemeConfig.t :=
  {| ThemeConfig.light := lightColors; ThemeConfig.dark := darkColors |}.

(** [getThemeColors(mode?: string)]: an omitted argument is [None]. *)
Definition getThemeColors (mode : option string) : ThemeColors.t :=
  if decide (mode = Some (AppThemes_value DARK))
  then ThemeConfig.dark COLORS
  else ThemeConfig.light COLORS.

(** A field is missing when it is the empty string; the gradient is
    populated when it has its nine steps, each of them present. *)
Definition present (s : string) : bool := negb (String.eqb s "").

Definition chartsPopulated (c : ChartColors.t) : bool :=
  present (ChartColors.text c) && present (ChartColors.axis c)
  && present (ChartColors.line c) && present (ChartColors.tooltipBackground c)
  && present (ChartColors.hyperEvmLp c) && present (ChartColors.hyperEvmBalances c)
  && present (ChartColors.hyperCorePerp c) && present (ChartColors.hyperCoreSpot c)
  && (length (ChartColors.heatmapGradient c) =? 9)%nat
  && forallb present (ChartColors.heatmapGradient c).

Definition fullyPopulated (p : ThemeColors.t) : bool :=
  present (ThemeColors.background p) && present (ThemeColors.backgroundOpposite p)
  && present (ThemeColors.primary p) && present (ThemeColors.default p)
  && present (ThemeColors.hyperEvmLp p) && present (ThemeColors.hyperEvmBalances p)
  && present (ThemeColors.hyperCorePerp p) && present (ThemeColors.hyperCoreSpot p)
  && chartsPopulated (ThemeColors.charts p).

(* ===================================================================== *)
(** ** Heatmap data (HeatmapAprChart.tsx)                                 *)
(* ===================================================================== *)

(** A JavaScript number: a finite number by its exact value, NaN, or an
    infinity (a JSON numeral too large for a double parses to one). *)
Inductive number :=
  | Finite (q : Qc)
  | NaN
  | PosInfinity
  | NegInfinity.

(** The number whose value is the integer [z]. *)
Definition Int (z : Z) : number := Finite (Qc_of_Z z).
Coercion Int : Z >-> number.

(** Values stored in the emitted triples: a number, or [undefined] when the
    values matrix has no entry at the position read. *)
Inductive jsval :=
  | JNum (x : number)
  | JUndefined.
Arguments JNum x%_Z.

(** Outcome of a computation that may throw. *)
Inductive result (A : Type) :=
  | Ok (a : A)
  | Throw (e : string).
Arguments Ok {A} a.
Arguments Throw {A} e.

Definition TypeError : string := "TypeError".

Record HeatmapDataConfig := { showNegativeFunding : bool }.

Record HeatmapDataResult := {
  data : list (list jsval);
  lpSteps : nat;
  fundingSteps : nat;
  xAxisLabels : list string;
  yAxisLabels : list string;
}.

Record HeatmapJsonDataset := {
  token : string;
  sources : list string;
  pools : list string;
  valuesBps : list (list number);
  updatedAt : string;
}.

(** [row[i]] on a row of numbers. *)
Definition elemAt (row : list number) (i : nat) : jsval :=
  match row !! i with
  | Some v => JNum v
  | None => JUndefined
  end.

(** [valuesBps[j][i]]: throws when row [j] does not exist. *)
Definition valueAt (valuesBps : list (list number)) (j i : nat) : result jsval :=
  match valuesBps !! j with
  | Some row => Ok (elemAt row i)
  | None => Throw TypeError
  end.

(** The inner loop [for (let j = ...; j < pools.length; j++) data.push(...)],
    with [n] iterations left and the array [data] threaded through. *)
Fixpoint poolLoop (valuesBps : list (list number)) (i j n : nat)
    (data : list (list jsval)) : result (list (list jsval)) :=
  match n with
  | O => Ok data
  | S n' =>
      match valueAt valuesBps j i with
      | Ok v =>
          poolLoop valuesBps i (S j) n'
            (data ++ [[JNum (Z.of_nat i); JNum (Z.of_nat j); v]])
      | Throw e => Throw e
      end
  end.

(** The outer loop [for (let i = ...; i < sources.length; i++)], with [n]
    iterations left. *)
Fixpoint sourceLoop (valuesBps : list (list number)) (nPools : nat) (i n : nat)
    (data : list (list jsval)) : result (list (list jsval)) :=
  match n with
  | O => Ok data
  | S n' =>
      match poolLoop valuesBps i 0 nPools data with
      | Ok data' => sourceLoop valuesBps nPools (S i) n' data'
      | Throw e => Throw e
      end
  end.

(** Both functions below run the same pair of nested loops over their own
    [sources], [pools] and [valuesBps]. *)
Definition buildData (srcs pls : list string) (vals : list (list number))
    : result (list (list jsval)) :=
  sourceLoop vals (length pls) 0 (length srcs) [].

Definition generateHeatmapData (config : HeatmapDataConfig) : result HeatmapDataResult :=
  let _unused := showNegativeFunding config in
  let sources := ["HYPERCORE"; "PYTH"; "REDSTONE"] in
  let pools := ["POOL A HyperSwap 0.05"; "POOL B HyperSwap 0.3"; "POOL C Project X"] in
  let valuesBps := [[Int 12; Int 25; Int (-8)];
                    [Int 5; Int 18; Int 3];
                    [Int (-4); Int 10; Int 37]] in
  match buildData sources pools valuesBps with
  | Ok data =>
      Ok {| data := data;
            lpSteps := length sources;
            fundingSteps := length pools;
            xAxisLabels := sources;
            yAxisLabels := pools |}
  | Throw e => Throw e
  end.

(** [x?.length] used as a condition: true for a non-empty array. *)
Definition truthyLength {A} (l : list A) : bool := negb (length l =? 0)%nat.

(** The value computed by the [heatmapData] memo. *)
Definition heatmapData (dataset : option HeatmapJsonDataset)
    (showNegativeFunding : bool) : result HeatmapDataResult :=
  match dataset with
  | Some d =>
      if truthyLength (sources d) && truthyLength (pools d)
         && truthyLength (valuesBps d)
      then
        match buildData (sources d) (pools d) (valuesBps d) with
        | Ok data =>
            Ok {| data := data;
                  lpSteps := length (sources d);
                  fundingSteps := length (pools d);
                  xAxisLabels := sources d;
                  yAxisLabels := pools d |}
        | Throw e => Throw e
        end
      else generateHeatmapData {| showNegativeFunding := showNegativeFunding |}
  | None => generateHeatmapData {| showNegativeFunding := showNegativeFunding |}
  end.

(** *** Comparing numbers *)

(** [a < b] on finite values. *)
Definition ltQc (a b : Qc) : bool :=
  match (a ?= b)%Qc with
  | Lt => true
  | _ => false
  end.

(** [a < b] on numbers; false when either is NaN. *)
Definition ltNumber (a b : number) : bool :=
  match a, b with
  | Finite x, Finite y => ltQc x y
  | Finite _, PosInfinity => true
  | NegInfinity, Finite _ => true
  | NegInfinity, PosInfinity => true
  | _, _ => false
  end.

(** [ToNumber] on the values a triple holds. *)
Definition toNumber (v : jsval) : number :=
  match v with
  | JNum x => x
  | JUndefined => NaN
  end.

(** [v > 0] *)
Definition gtZero (v : jsval) : bool := ltNumber (Int 0) (toNumber v).

(** *** Formatters *)

Definition MAX_SAFE_INTEGER : Z := 2 ^ 53 - 1.

(** [q] is an integer of magnitude at most 2^53 - 1. *)
Definition isSafeInteger (q : Qc) : bool :=
  Pos.eqb (Qden q) 1 && (Z.abs (Qnum q) <=? MAX_SAFE_INTEGER)%Z.

Section Formatters.

(** What the engine prints for a positive finite number that is not a safe
    integer: the shortest digits that read back as the same double, in
    exponent form from 1e21 on. *)
Variable engineDigits : Qc → string.

(** [Number::toString] of a finite number that is not negative. *)
Definition digitsOf (q : Qc) : string :=
  if isSafeInteger q then pretty (Qnum q) else engineDigits q.

(** [Number::toString]: a negative number prints as a minus sign followed by
    the digits of its opposite. *)
Definition numberToString (x : number) : string :=
  match x with
  | Finite q =>
      if ltQc q (Qc_of_Z 0) then "-" +:+ digitsOf (- q) else digitsOf q
  | NaN => "NaN"
  | PosInfinity => "Infinity"
  | NegInfinity => "-Infinity"
  end.

(** [String(v)] inside a template literal. *)
Definition toString (v : jsval) : string :=
  match v with
  | JNum x => numberToString x
  | JUndefined => "undefined"
  end.

(** The formatter argument: [None] is a null/undefined [params]; a [value]
    that is absent or not an array is [None]. *)
Record Params := { value : option (list jsval) }.

Definition validValue (params : option Params) : option (list jsval) :=
  match params with
  | Some p =>
      match value p with
      | Some arr => if (length arr <? 3)%nat then None else Some arr
      | None => None
      end
  | None => None
  end.

(** [arr[k]] *)
Definition jsIndex (arr : list jsval) (k : nat) : jsval :=
  match arr !! k with
  | Some v => v
  | None => JUndefined
  end.

(** The series label formatter. *)
Definition labelFormatter (params : option Params) : string :=
  match validValue params with
  | None => ""
  | Some arr =>
      let v := jsIndex arr 2 in
      (if gtZero v then "+" else "") +:+ toString v +:+ " bps"
  end.

(** The line [Spread: ... bps] of the tooltip formatter; the formatter
    returns the empty string under the same guard. *)
Definition tooltipSpreadLine (params : option Params) : string :=
  match validValue params with
  | None => ""
  | Some arr =>
      let spreadBps := jsIndex arr 2 in
      "Spread: " +:+ (if gtZero spreadBps then "+" else "") +:+ toString spreadBps +:+ " bps"
  end.

End Formatters.

(** The argument the chart passes for a cell of the series
    ([data.map((item) => ({ value: item }))]). *)
Definition cellParams (item : list jsval) : option Params :=
  Some {| value := Some item |}.


(* ===================================================================== *)
(** ** The polling effect (HeatmapAprChart.tsx, useEffect on selectedToken) *)
(* ===================================================================== *)

Inductive TokenType := HYPE | BTC | ETH.

Definition TokenType_value (t : TokenType) : string :=
  match t with
  | HYPE => "HYPE"
  | BTC => "BTC"
  | ETH => "ETH"
  end.

Definition lowerAscii (c : ascii) : ascii :=
  let n := nat_of_ascii c in
  if (65 <=? n)%nat && (n <=? 90)%nat then ascii_of_nat (n + 32) else c.

Fixpoint toLowerCase (s : string) : string :=
  match s with
  | EmptyString => EmptyString
  | String c s' => String (lowerAscii c) (toLowerCase s')
  end.

(** The address fetched for a token at time [now] ([Date.now()]). *)
Definition requestUrl (selectedToken : TokenType) (now : Z) : string :=
  let tokenPath := toLowerCase (TokenType_value selectedToken) in
  "/data/heatmap/" +:+ tokenPath +:+ ".json?t=" +:+ pretty now.

(** What the network does with a request: [fetch] rejects, or it resolves
    with a status and a body; [None] is a body [res.json()] rejects. *)
Inductive FetchOutcome :=
  | NetworkError
  | Response (status : nat) (body : option HeatmapJsonDataset).

(** [res.ok] *)
Definition resOk (status : nat) : bool :=
  (200 <=? status)%nat && (status <=? 299)%nat.

(** The [try] block up to the commit: the parsed document, or [None] when
    control reaches the [catch] clause. *)
Definition tryBlock (o : FetchOutcome) : option HeatmapJsonDataset :=
  match o with
  | NetworkError => None
  | Response status body => if resOk status then body else None
  end.

(** The variables one run of the effect closes over; [intervalId] is 0
    while the variable is still undefined. *)
Record EffectClosure := {
  isCancelled : bool;
  intervalId : nat;
  effectToken : TokenType;
}.

(** A call of [fetchData] suspended at an [await]. *)
Record Request := {
  requestEffect : nat;
  requestUrlOf : string;
}.

Record State := {
  selectedToken : TokenType;
  dataset : option HeatmapJsonDataset;
  lastUpdatedAt : option Z;
  (** the closures of all runs of the effect so far, by run number *)
  effects : list EffectClosure;
  (** the run whose clean-up React holds; [None] once unmounted *)
  current : option nat;
  (** the window's live intervals: id to the run whose [fetchData] it calls *)
  timers : gmap nat nat;
  nextTimer : nat;
  (** the calls of [fetchData] in flight *)
  pending : gmap nat Request;
  nextRequest : nat;
}.

Definition setDataset (d : option HeatmapJsonDataset) (s : State) : State :=
  {| selectedToken := selectedToken s; dataset := d;
     lastUpdatedAt := lastUpdatedAt s; effects := effects s;
     current := current s; timers := timers s; nextTimer := nextTimer s;
     pending := pending s; nextRequest := nextRequest s |}.

Definition setLastUpdatedAt (t : option Z) (s : State) : State :=
  {| selectedToken := selectedToken s; dataset := dataset s;
     lastUpdatedAt := t; effects := effects s;
     current := current s; timers := timers s; nextTimer := nextTimer s;
     pending := pending s; nextRequest := nextRequest s |}.

Definition setSelectedToken (t : TokenType) (s : State) : State :=
  {| selectedToken := t; dataset := dataset s;
     lastUpdatedAt := lastUpdatedAt s; effects := effects s;
     current := current s; timers := timers s; nextTimer := nextTimer s;
     pending := pending s; nextRequest := nextRequest s |}.

Definition withEffects (es : list EffectClosure) (s : State) : State :=
  {| selectedToken := selectedToken s; dataset := dataset s;
     lastUpdatedAt := lastUpdatedAt s; effects := es;
     current := current s; timers := timers s; nextTimer := nextTimer s;
     pending := pending s; nextRequest := nextRequest s |}.

Definition withCurrent (c : option nat) (s : State) : State :=
  {| selectedToken := selectedToken s; dataset := dataset s;
     lastUpdatedAt := lastUpdatedAt s; effects := effects s;
     current := c; timers := timers s; nextTimer := nextTimer s;
     pending := pending s; nextRequest := nextRequest s |}.

Definition withTimers (ts : gmap nat nat) (n : nat) (s : State) : State :=
  {| selectedToken := selectedToken s; dataset := dataset s;
     lastUpdatedAt := lastUpdatedAt s; effects := effects s;
     current := current s; timers := ts; nextTimer := n;
     pending := pending s; nextRequest := nextRequest s |}.

Definition withPending (ps : gmap nat Request) (n : nat) (s : State) : State :=
  {| selectedToken := selectedToken s; dataset := dataset s;
     lastUpdatedAt := lastUpdatedAt s; effects := effects s;
     current := current s; timers := timers s; nextTimer := nextTimer s;
     pending := ps; nextRequest := n |}.

(** The flag [isCancelled] of run [e], as a continuation of that run reads it. *)
Definition cancelledOf (s : State) (e : nat) : bool :=
  match effects s !! e with
  | Some c => isCancelled c
  | None => false
  end.

(** [fetchData()] of run [e] up to its first [await]: the request leaves. *)
Definition fetchData (e : nat) (now : Z) (s : State) : State :=
  match effects s !! e with
  | Some c =>
      withPending
        (<[nextRequest s := {| requestEffect := e;
                               requestUrlOf := requestUrl (effectToken c) now |}]>
           (pending s))
        (S (nextRequest s)) s
  | None => s
  end.

(** The rest of [fetchData] once the request has settled with outcome [o]. *)
Definition resume (request : nat) (o : FetchOutcome) (now : Z) (s : State) : State :=
  match pending s !! request with
  | Some rq =>
      let s1 := withPending (delete request (pending s)) (nextRequest s) s in
      match tryBlock o with
      | Some json =>
          if negb (cancelledOf s1 (requestEffect rq))
          then setLastUpdatedAt (Some now) (setDataset (Some json) s1)
          else s1
      | None =>
          if negb (cancelledOf s1 (requestEffect rq))
          then setDataset None s1
          else s1
      end
  | None => s
  end.

(** The effect body: a fresh closure, a first [fetchData()], then
    [setInterval(fetchData, 5000)]. *)
Definition runEffect (now : Z) (s : State) : State :=
  let e := length (effects s) in
  let s1 := withEffects
              (effects s ++ [{| isCancelled := false; intervalId := 0;
                                effectToken := selectedToken s |}]) s in
  let s2 := fetchData e now s1 in
  let id := nextTimer s2 in
  let s3 := withEffects
              (<[e := {| isCancelled := false; intervalId := id;
                         effectToken := selectedToken s |}]> (effects s2)) s2 in
  withCurrent (Some e) (withTimers (<[id := e]> (timers s3)) (S id) s3).

(** The function the effect returns. *)
Definition cleanup (e : nat) (s : State) : State :=
  match effects s !! e with
  | Some c =>
      let s1 := withEffects
                  (<[e := {| isCancelled := true; intervalId := intervalId c;
                             effectToken := effectToken c |}]> (effects s)) s in
      if negb (intervalId c =? 0)%nat
      then withTimers (delete (intervalId c) (timers s1)) (nextTimer s1) s1
      else s1
  | None => s
  end.

(** State of the component before its first effect has run. *)
Definition initial : State :=
  {| selectedToken := HYPE; dataset := None; lastUpdatedAt := None;
     effects := []; current := None; timers := ∅; nextTimer := 1;
     pending := ∅; nextRequest := 0 |}.

Definition mount (now : Z) : State := runEffect now initial.

Inductive Event :=
  | Tick (timer : nat) (now : Z)
  | Settle (request : nat) (o : FetchOutcome) (now : Z)
  | Select (t : TokenType) (now : Z)
  | Unmount.

Definition TokenType_eqb (a b : TokenType) : bool :=
  match a, b with
  | HYPE, HYPE | BTC, BTC | ETH, ETH => true
  | _, _ => false
  end.

(** One turn of the event loop. A tab click on the selected token changes
    nothing; on another token React re-renders, runs the clean-up of the
    previous run and then the effect again. *)
Definition step (s : State) (ev : Event) : State :=
  match ev with
  | Tick timer now =>
      match timers s !! timer with
      | Some e => fetchData e now s
      | None => s
      end
  | Settle request o now => resume request o now s
  | Select t now =>
      match current s with
      | Some e =>
          if TokenType_eqb t (selectedToken s) then s
          else runEffect now (setSelectedToken t (cleanup e s))
      | None => s
      end
  | Unmount =>
      match current s with
      | Some e => withCurrent None (cleanup e s)
      | None => s
      end
  end.

Definition run (s : State) (evs : list Event) : State := foldl step s evs.

Definition reachable (s : State) : Prop :=
  ∃ now evs, s = run (mount now) evs.

(* ===================================================================== *)
(** ** Auxiliary definitions used in the statements                       *)
(* ===================================================================== *)

(** The triple pushed for source [i] and pool [j]. *)
Definition triple (i j : nat) (v : jsval) : list jsval :=
  [JNum (Z.of_nat i); JNum (Z.of_nat j); v].

(** The data-model invariant on a dataset: one row per pool and one column
    per source. *)
Definition shapeInvariant (d : HeatmapJsonDataset) : bool :=
  (length (valuesBps d) =? length (pools d))
  && forallb (λ row, length row =? length (sources d)) (valuesBps d).

(** The default result, written out. *)
Definition defaultResult : HeatmapDataResult :=
  {| data :=
       [ [JNum 0; JNum 0; JNum 12]; [JNum 0; JNum 1; JNum 5];
         [JNum 0; JNum 2; JNum (-4)]; [JNum 1; JNum 0; JNum 25];
         [JNum 1; JNum 1; JNum 18]; [JNum 1; JNum 2; JNum 10];
         [JNum 2; JNum 0; JNum (-8)]; [JNum 2; JNum 1; JNum 3];
         [JNum 2; JNum 2; JNum 37] ];
     lpSteps := 3;
     fundingSteps := 3;
     xAxisLabels := ["HYPERCORE"; "PYTH"; "REDSTONE"];
     yAxisLabels :=
       ["POOL A HyperSwap 0.05"; "POOL B HyperSwap 0.3"; "POOL C Project X"] |}.

(** Sample datasets. *)
Definition twoByThree : HeatmapJsonDataset :=
  {| token := "HYPE"; sources := ["HYPERCORE"; "PYTH"];
     pools := ["P1"; "P2"; "P3"];
     valuesBps := [[Int 1; Int 2]; [Int 3; Int 4]; [Int 5; Int 6]];
     updatedAt := "2025-01-01T00:00:00Z" |}.

Definition noPools : HeatmapJsonDataset :=
  {| token := "BTC"; sources := ["HYPERCORE"]; pools := [];
     valuesBps := [[Int 1]]; updatedAt := "2025-01-01T00:00:00Z" |}.

(** Two sources, one pool, and no row at all. *)
Definition noValues : HeatmapJsonDataset :=
  {| token := "ETH"; sources := ["HYPERCORE"; "PYTH"]; pools := ["P1"];
     valuesBps := []; updatedAt := "2025-01-01T00:00:00Z" |}.

(** Two sources, one pool, and a single row that holds one number only. *)
Definition shortRow : HeatmapJsonDataset :=
  {| token := "ETH"; sources := ["HYPERCORE"; "PYTH"]; pools := ["P1"];
     valuesBps := [[Int 7]]; updatedAt := "2025-01-01T00:00:00Z" |}.

(** One source, two pools, and a single row. *)
Definition missingRow : HeatmapJsonDataset :=
  {| token := "ETH"; sources := ["HYPERCORE"]; pools := ["P1"; "P2"];
     valuesBps := [[Int 7]]; updatedAt := "2025-01-01T00:00:00Z" |}.

Definition hypeOld : HeatmapJsonDataset :=
  {| token := "HYPE"; sources := ["HYPERCORE"]; pools := ["P1"];
     valuesBps := [[Int 11]]; updatedAt := "2025-01-01T00:00:00Z" |}.

Definition hypeNew : HeatmapJsonDataset :=
  {| token := "HYPE"; sources := ["HYPERCORE"]; pools := ["P1"];
     valuesBps := [[Int 22]]; updatedAt := "2025-01-01T00:00:05Z" |}.

(** Mounted at time 0, a first document loaded, then the BTC tab clicked at
    time 100. *)
Definition afterSelectBTC : State :=
  run (mount 0) [Settle 0 (Response 200 (Some hypeOld)) 40; Select BTC 100].

(** Mounted at time 0, a first document loaded, then the timer fires at
    time 5000. *)
Definition afterFirstPoll : State :=
  run (mount 0) [Settle 0 (Response 200 (Some hypeOld)) 40; Tick 1 5000].

(** As [afterFirstPoll], then the BTC tab clicked at time 5100 while the
    poll of time 5000 is still in flight. *)
Definition afterTokenChange : State := step afterFirstPoll (Select BTC 5100).

(** Mounted at time 0; the timer fires at time 5000 while the first request
    is still in flight. *)
Definition twoInFlight : State := run (mount 0) [Tick 1 5000].

(** Invariant of the component between two events. Every request in
    flight belongs to a run of the effect; timer ids are positive and below
    the next id; the only live timer is the one of the current run; the
    current run is not cancelled and every other run is. *)
Record consistent (s : State) : Prop := {
  cons_pending :
    ∀ r rq, pending s !! r = Some rq → requestEffect rq < length (effects s);
  cons_ids :
    0 < nextTimer s
    ∧ ∀ e c, effects s !! e = Some c → 0 < intervalId c < nextTimer s;
  cons_timers :
    ∀ tid e, timers s !! tid = Some e →
      current s = Some e ∧ ∃ c, effects s !! e = Some c ∧ intervalId c = tid;
  cons_current :
    ∀ e, current s = Some e →
      ∃ c, effects s !! e = Some c ∧ isCancelled c = false
           ∧ timers s !! intervalId c = Some e;
  cons_others :
    ∀ e c, effects s !! e = Some c → current s ≠ Some e → isCancelled c = true;
}.

(** The component between a clean-up and the next run of the effect (and
    before the first run): no timer is live and every run is cancelled. *)
Record quiescent (s : State) : Prop := {
  quiet_pending :
    ∀ r rq, pending s !! r = Some rq → requestEffect rq < length (effects s);
  quiet_ids :
    0 < nextTimer s
    ∧ ∀ e c, effects s !! e = Some c → 0 < intervalId c < nextTimer s;
  quiet_timers : ∀ tid, timers s !! tid = None;
  quiet_all : ∀ e c, effects s !! e = Some c → isCancelled c = true;
}.

(* ===================================================================== *)
(** ** The colour range of the chart (HeatmapAprChart.tsx, options effect) *)
(* ===================================================================== *)

(** The loop of [Math.min] over the coerced arguments, [lowest] so far. *)
Fixpoint mathMinFrom (lowest : number) (coerced : list number) : number :=
  match coerced with
  | [] => lowest
  | NaN :: _ => NaN
  | n :: rest => mathMinFrom (if ltNumber n lowest then n else lowest) rest
  end.

(** The loop of [Math.max] over the coerced arguments, [highest] so far. *)
Fixpoint mathMaxFrom (highest : number) (coerced : list number) : number :=
  match coerced with
  | [] => highest
  | NaN :: _ => NaN
  | n :: rest => mathMaxFrom (if ltNumber highest n then n else highest) rest
  end.

Definition mathMin (args : list jsval) : number :=
  mathMinFrom PosInfinity (map toNumber args).

Definition mathMax (args : list jsval) : number :=
  mathMaxFrom NegInfinity (map toNumber args).

(** [Math.min(...data.map((d) => d[2]))] and its counterpart. *)
Definition minBps (data : list (list jsval)) : number :=
  mathMin (map (λ d, jsIndex d 2) data).

Definition maxBps (data : list (list jsval)) : number :=
  mathMax (map (λ d, jsIndex d 2) data).

(** The [min] and [max] the options effect gives the visual map; [None]
    when the effect returns early on an empty [data] and sets no options. *)
Definition visualMapRange (r : HeatmapDataResult) : option (number * number) :=
  if (length (data r) =? 0)%nat then None
  else Some (minBps (data r), maxBps (data r)).

(** [resolvedTheme === AppThemes.DARK] in the component. *)
Definition isDarkMode (resolvedTheme : option string) : bool :=
  bool_decide (resolvedTheme = Some (AppThemes_value DARK)).

(** The tooltip text colour the options effect picks. *)
Definition tooltipTextColor (resolvedTheme : option string) : string :=
  if isDarkMode resolvedTheme then "#f3f4f6" else "#1f2937".

(** ** Further invariants of the polling effect *)

(** Every request in flight asks for the token of the run that issued it. *)
Definition requestsFollowRun (s : State) : Prop :=
  ∀ r rq, pending s !! r = Some rq →
    ∃ c now, effects s !! requestEffect rq = Some c
             ∧ requestUrlOf rq = requestUrl (effectToken c) now.

(** The current run was started for the selected token. *)
Definition currentFollowsSelection (s : State) : Prop :=
  ∀ e c, current s = Some e → effects s !! e = Some c →
    effectToken c = selectedToken s.

(** The time an event carries when it can send a request: a tick of the
    interval or a click on a tab. *)
Definition issueTime (ev : Event) : option Z :=
  match ev with
  | Tick _ now => Some now
  | Select _ now => Some now
  | Settle _ _ _ => None
  | Unmount => None
  end.

(** Request numbers in flight are below the next number to be given. *)
Definition requestsNumbered (s : State) : Prop :=
  ∀ r rq, pending s !! r = Some rq → r < nextRequest s.

(** The dataset [sources], [pools] and [valuesBps] of the generator, as a
    document. *)
Definition defaultDataset : HeatmapJsonDataset :=
  {| token := ""; sources := ["HYPERCORE"; "PYTH"; "REDSTONE"];
     pools := ["POOL A HyperSwap 0.05"; "POOL B HyperSwap 0.3"; "POOL C Project X"];
     valuesBps := [[Int 12; Int 25; Int (-8)];
                   [Int 5; Int 18; Int 3];
                   [Int (-4); Int 10; Int 37]];
     updatedAt := "" |}.

(* ===================================================================== *)
(** * Properties                                                          *)
(* ===================================================================== *)

(** ** Theme resolver *)

(** C8: the theme resolver is deterministic (equal inputs give equal
    palettes, and each call returns the palette stored in COLORS for that
    input), the palette returned for either input has every field present
    and a gradient of nine steps, and the light and dark gradients differ. *)
Theorem getColorsByTheme_deterministic_populated :
  (∀ b1 b2 : bool, b1 = b2 → getColorsByTheme b1 = getColorsByTheme b2)
  ∧ (∀ b : bool,
       getColorsByTheme b
       = (if b then ThemeConfig.dark COLORS else ThemeConfig.light COLORS)
       ∧ fullyPopulated (getColorsByTheme b) = true
       ∧ length (ChartColors.heatmapGradient (ThemeColors.charts (getColorsByTheme b))) = 9)
  ∧ ChartColors.heatmapGradient (ThemeColors.charts (getColorsByTheme false))
    ≠ ChartColors.heatmapGradient (ThemeColors.charts (getColorsByTheme true)).
Proof.
  split; [| split].
  - intros b1 b2 ->. reflexivity.
  - intros []; repeat split; reflexivity.
  - simpl. intros Heq. discriminate Heq.
Qed.

Lemma getColorsByTheme_deterministic_populated_witness :
  getColorsByTheme true = getColorsByTheme (negb false).
Proof.
  apply (proj1 getColorsByTheme_deterministic_populated true (negb false)).
  reflexivity.
Defined.

Lemma light_dark_differ : ThemeConfig.dark COLORS ≠ ThemeConfig.light COLORS.
Proof. intros Heq. discriminate Heq. Qed.

(** C10: getThemeColors returns the light palette for every argument other
    than the exact string 'dark' (an omitted argument, 'light', 'system' and
    any other string), returns the dark palette for 'dark', and the two
    palettes are different. *)
Theorem getThemeColors_dark_only :
  (∀ mode : option string,
     mode ≠ Some "dark" → getThemeColors mode = ThemeConfig.light COLORS)
  ∧ getThemeColors None = ThemeConfig.light COLORS
  ∧ getThemeColors (Some (AppThemes_value LIGHT)) = ThemeConfig.light COLORS
  ∧ getThemeColors (Some (AppThemes_value SYSTEM)) = ThemeConfig.light COLORS
  ∧ getThemeColors (Some "dark") = ThemeConfig.dark COLORS
  ∧ (∀ mode : option string,
       getThemeColors mode = ThemeConfig.dark COLORS → mode = Some "dark").
Proof.
  assert (Hlight : ∀ mode : option string,
            mode ≠ Some "dark" → getThemeColors mode = ThemeConfig.light COLORS).
  { intros mode Hne. unfold getThemeColors. simpl AppThemes_value.
    destruct (decide (mode = Some "dark")) as [Heq | _]; [congruence | reflexivity]. }
  split; [exact Hlight |].
  repeat split; try reflexivity.
  intros mode Hdark.
  destruct (decide (mode = Some "dark")) as [Heq | Hne]; [exact Heq |].
  rewrite (Hlight mode Hne) in Hdark.
  exfalso. apply light_dark_differ. symmetry. exact Hdark.
Qed.

Lemma getThemeColors_dark_only_witness :
  getThemeColors (Some "Dark") = ThemeConfig.light COLORS.
Proof.
  apply (proj1 getThemeColors_dark_only (Some "Dark")).
  intros Heq. discriminate Heq.
Defined.

(** ** Formatters *)

Lemma validValue_third (arr : list jsval) (v : jsval) :
  arr !! 2 = Some v →
  validValue (cellParams arr) = Some arr ∧ jsIndex arr 2 = v.
Proof.
  intros H2. unfold validValue, cellParams, jsIndex. simpl. rewrite H2.
  apply lookup_lt_Some in H2.
  destruct (Nat.ltb_spec (length arr) 3) as [Hlt | _]; [lia | by split].
Qed.

(** Comparing two integers as numbers is comparing them as integers. *)
Lemma ltQc_Z (a b : Z) : ltQc (Qc_of_Z a) (Qc_of_Z b) = (a <? b)%Z.
Proof.
  unfold ltQc, Qccompare, Qcompare. simpl. rewrite !Z.mul_1_r. reflexivity.
Qed.

Lemma gtZero_Int (z : Z) : gtZero (JNum z) = (0 <? z)%Z.
Proof. unfold gtZero. simpl. apply ltQc_Z. Qed.

Lemma isSafeInteger_Int (z : Z) :
  isSafeInteger (Qc_of_Z z) = (Z.abs z <=? MAX_SAFE_INTEGER)%Z.
Proof. reflexivity. Qed.

(** A negative integer prints as a minus sign and the text of its opposite;
    an integer that is not negative prints as its digits. *)
Lemma numberToString_Int (engineDigits : Qc → string) (z : Z) :
  numberToString engineDigits (Int z)
  = if (z <? 0)%Z
    then "-" +:+ numberToString engineDigits (Int (- z))
    else digitsOf engineDigits (Qc_of_Z z).
Proof.
  unfold numberToString, Int. rewrite !ltQc_Z.
  destruct (Z.ltb_spec z 0) as [Hneg | Hpos]; [| reflexivity].
  rewrite <- Z2Qc_inj_opp.
  destruct (Z.ltb_spec (- z) 0); [lia | reflexivity].
Qed.

(** A safe integer prints as its decimal numeral. *)
Lemma numberToString_safe (engineDigits : Qc → string) (z : Z) :
  (Z.abs z ≤ MAX_SAFE_INTEGER)%Z →
  numberToString engineDigits (Int z) = pretty z.
Proof.
  intros Hsafe.
  assert (Hdigits : ∀ p, (Z.pos p ≤ MAX_SAFE_INTEGER)%Z →
            digitsOf engineDigits (Qc_of_Z (Z.pos p)) = pretty (Z.pos p)).
  { intros p Hp. unfold digitsOf. rewrite isSafeInteger_Int.
    destruct (Z.leb_spec (Z.abs (Z.pos p)) MAX_SAFE_INTEGER); [reflexivity | lia]. }
  rewrite numberToString_Int. destruct z as [| p | p].
  - reflexivity.
  - change (Z.pos p <? 0)%Z with false. cbv iota. apply Hdigits. lia.
  - change (Z.neg p <? 0)%Z with true. cbv iota.
    change (- Z.neg p)%Z with (Z.pos p).
    rewrite numberToString_Int.
    change (Z.pos p <? 0)%Z with false. cbv iota.
    rewrite Hdigits by lia. reflexivity.
Qed.

(** C7: for a cell whose value is the integer v, whatever the digits the
    engine prints for numbers beyond the safe integers: the label is '+'
    followed by the text of v and ' bps' when v > 0; it is the minus sign,
    the text of |v| and ' bps', with no other prefix, when v < 0; it is
    '0 bps' when v = 0. The tooltip's spread line is the same text after
    'Spread: '. The text of a safe integer (magnitude at most 2^53 - 1) is
    its decimal numeral; 12, -8 and 0 give '+12 bps', '-8 bps', '0 bps'. *)
Theorem labelFormatter_signed_bps (engineDigits : Qc → string) :
  (∀ (arr : list jsval) (v : Z),
     arr !! 2 = Some (JNum v) →
     labelFormatter engineDigits (cellParams arr)
     = match (v ?= 0)%Z with
       | Gt => "+" +:+ toString engineDigits (JNum v) +:+ " bps"
       | Lt => "-" +:+ toString engineDigits (JNum (Z.abs v)) +:+ " bps"
       | Eq => "0 bps"
       end
     ∧ tooltipSpreadLine engineDigits (cellParams arr)
       = "Spread: " +:+ labelFormatter engineDigits (cellParams arr))
  ∧ (∀ v : Z,
       (Z.abs v ≤ MAX_SAFE_INTEGER)%Z →
       toString engineDigits (JNum v) = pretty v)
  ∧ labelFormatter engineDigits (cellParams [JNum 0; JNum 0; JNum 12]) = "+12 bps"
  ∧ labelFormatter engineDigits (cellParams [JNum 2; JNum 0; JNum (-8)]) = "-8 bps"
  ∧ labelFormatter engineDigits (cellParams [JNum 1; JNum 1; JNum 0]) = "0 bps"
  ∧ tooltipSpreadLine engineDigits (cellParams [JNum 0; JNum 0; JNum 12])
    = "Spread: +12 bps"
  ∧ tooltipSpreadLine engineDigits (cellParams [JNum 2; JNum 0; JNum (-8)])
    = "Spread: -8 bps"
  ∧ tooltipSpreadLine engineDigits (cellParams [JNum 1; JNum 1; JNum 0])
    = "Spread: 0 bps".
Proof.
  split; [| split; [intros v Hsafe; by apply numberToString_safe |];
            repeat split; reflexivity].
  intros arr v H2.
  destruct (validValue_third arr (JNum v) H2) as [Hvalid Hidx].
  unfold labelFormatter, tooltipSpreadLine. rewrite Hvalid. cbv zeta.
  rewrite Hidx, gtZero_Int. unfold toString.
  destruct v as [| p | p].
  - split; reflexivity.
  - change (0 <? Z.pos p)%Z with true. split; reflexivity.
  - change (0 <? Z.neg p)%Z with false. rewrite numberToString_Int.
    change (Z.neg p <? 0)%Z with true. split; reflexivity.
Qed.

Lemma labelFormatter_signed_bps_witness :
  labelFormatter (λ _, "1e+21") (cellParams [JNum 1; JNum 2; JNum 37; JNum 5])
  = "+37 bps".
Proof.
  exact (proj1 (proj1 (labelFormatter_signed_bps (λ _, "1e+21"))
                  [JNum 1; JNum 2; JNum 37; JNum 5] 37%Z eq_refl)).
Defined.

(** ** Matrix builder *)

Section Loops.
Variable vals : list (list number).

Lemma valueAt_row (j i : nat) :
  j < length vals → ∃ v, valueAt vals j i = Ok v.
Proof.
  intros Hj. unfold valueAt.
  destruct (lookup_lt_is_Some_2 vals j Hj) as [row ->]. eauto.
Qed.

Lemma valueAt_no_row (j i : nat) :
  length vals ≤ j → valueAt vals j i = Throw TypeError.
Proof.
  intros Hj. unfold valueAt. by rewrite (lookup_ge_None_2 vals j Hj).
Qed.

(** Invariant of the inner loop: it keeps what [data] held and appends
    one triple per pool, in pool order. *)
Lemma poolLoop_spec (i : nat) :
  ∀ (n j : nat) (acc : list (list jsval)),
    j + n ≤ length vals →
    ∃ out,
      poolLoop vals i j n acc = Ok out
      ∧ length out = length acc + n
      ∧ (∀ k, k < length acc → out !! k = acc !! k)
      ∧ (∀ k, k < n →
           ∃ v, valueAt vals (j + k) i = Ok v
                ∧ out !! (length acc + k) = Some (triple i (j + k) v)).
Proof.
  induction n as [| n IH]; intros j acc Hle.
  - exists acc. simpl.
    split; [reflexivity |]. split; [lia |]. split; [reflexivity |].
    intros k Hk. lia.
  - simpl. destruct (valueAt_row j i) as [v Hv]; [lia |]. rewrite Hv.
    destruct (IH (S j) (acc ++ [triple i j v])) as (out & Hout & Hlen & Hold & Hnew);
      [lia |].
    rewrite length_app in Hlen, Hold, Hnew. simpl in Hlen, Hold, Hnew.
    exists out. split; [exact Hout |]. split; [lia |]. split.
    + intros k Hk. rewrite Hold by lia. by apply lookup_app_l.
    + intros [| k] Hk.
      * exists v. rewrite !Nat.add_0_r. split; [exact Hv |].
        rewrite Hold by lia. by rewrite list_lookup_middle.
      * destruct (Hnew k) as (w & Hw & Hk'); [lia |].
        exists w. replace (j + S k) with (S j + k) by lia.
        split; [exact Hw |].
        replace (length acc + S k) with (length acc + 1 + k) by lia.
        exact Hk'.
Qed.

(** The inner loop throws as soon as a pool has no row. *)
Lemma poolLoop_throw (i : nat) :
  ∀ (n j : nat) (acc : list (list jsval)),
    j ≤ length vals → length vals < j + n →
    poolLoop vals i j n acc = Throw TypeError.
Proof.
  induction n as [| n IH]; intros j acc Hj0 Hlt; simpl.
  - lia.
  - destruct (decide (j < length vals)) as [Hj | Hj].
    + destruct (valueAt_row j i Hj) as [v ->]. apply IH; lia.
    + rewrite valueAt_no_row by lia. reflexivity.
Qed.

(** Invariant of the outer loop: one block of [m] triples per source. *)
Lemma sourceLoop_spec (m : nat) :
  m ≤ length vals →
  ∀ (n i : nat) (acc : list (list jsval)),
    ∃ out,
      sourceLoop vals m i n acc = Ok out
      ∧ length out = length acc + n * m
      ∧ (∀ k, k < length acc → out !! k = acc !! k)
      ∧ (∀ a b, a < n → b < m →
           ∃ v, valueAt vals b (i + a) = Ok v
                ∧ out !! (length acc + a * m + b) = Some (triple (i + a) b v)).
Proof.
  intros Hm. induction n as [| n IH]; intros i acc.
  - exists acc. simpl.
    split; [reflexivity |]. split; [lia |]. split; [reflexivity |].
    intros a b Ha. lia.
  - simpl.
    destruct (poolLoop_spec i m 0 acc) as (mid & Hmid & Hlen1 & Hold1 & Hnew1);
      [lia |].
    rewrite Hmid.
    destruct (IH (S i) mid) as (out & Hout & Hlen & Hold & Hnew).
    exists out. split; [exact Hout |]. split; [lia |]. split.
    + intros k Hk. rewrite Hold by lia. by apply Hold1.
    + intros [| a] b Ha Hb.
      * destruct (Hnew1 b Hb) as (v & Hv & Hk). simpl in Hv.
        exists v. rewrite Nat.add_0_r. split; [exact Hv |].
        rewrite Hold by lia.
        replace (length acc + 0 * m + b) with (length acc + b) by lia.
        exact Hk.
      * destruct (Hnew a b) as (v & Hv & Hk); [lia | lia |].
        exists v. replace (i + S a) with (S i + a) by lia.
        split; [exact Hv |].
        replace (length acc + S a * m + b) with (length mid + a * m + b) by lia.
        exact Hk.
Qed.

Lemma sourceLoop_throw (m : nat) :
  length vals < m →
  ∀ (n i : nat) (acc : list (list jsval)),
    0 < n → sourceLoop vals m i n acc = Throw TypeError.
Proof.
  intros Hm [| n] i acc Hn; [lia |].
  simpl. rewrite poolLoop_throw by lia. reflexivity.
Qed.
End Loops.

Lemma truthyLength_spec {A} (l : list A) : truthyLength l = true ↔ 0 < length l.
Proof.
  unfold truthyLength. destruct (Nat.eqb_spec (length l) 0); simpl; split;
    intros; try lia; congruence.
Qed.

(** The guard of [heatmapData] holds exactly when the three sequences are
    non-empty. *)
Lemma guard_true (d : HeatmapJsonDataset) :
  0 < length (sources d) → 0 < length (pools d) → 0 < length (valuesBps d) →
  truthyLength (sources d) && truthyLength (pools d) && truthyLength (valuesBps d)
  = true.
Proof.
  intros Hs Hp Hv.
  by rewrite (proj2 (truthyLength_spec (sources d)) Hs),
             (proj2 (truthyLength_spec (pools d)) Hp),
             (proj2 (truthyLength_spec (valuesBps d)) Hv).
Qed.

Lemma guard_false (d : HeatmapJsonDataset) :
  sources d = [] ∨ pools d = [] ∨ valuesBps d = [] →
  truthyLength (sources d) && truthyLength (pools d) && truthyLength (valuesBps d)
  = false.
Proof.
  intros [H | [H | H]]; rewrite H; simpl.
  - reflexivity.
  - by rewrite andb_false_r.
  - by rewrite andb_false_r.
Qed.

(** What the builder does with a dataset that has a row for every pool. *)
Lemma heatmapData_built (d : HeatmapJsonDataset) (cfg : bool) :
  0 < length (sources d) → 0 < length (pools d) →
  length (pools d) ≤ length (valuesBps d) →
  ∃ r,
    heatmapData (Some d) cfg = Ok r
    ∧ length (data r) = length (sources d) * length (pools d)
    ∧ lpSteps r = length (sources d)
    ∧ fundingSteps r = length (pools d)
    ∧ xAxisLabels r = sources d
    ∧ yAxisLabels r = pools d
    ∧ (∀ i j, i < length (sources d) → j < length (pools d) →
         ∃ v, valueAt (valuesBps d) j i = Ok v
              ∧ data r !! (i * length (pools d) + j) = Some (triple i j v)).
Proof.
  intros Hs Hp Hv. unfold heatmapData. rewrite guard_true by lia.
  unfold buildData.
  destruct (sourceLoop_spec (valuesBps d) (length (pools d)) Hv
              (length (sources d)) 0 []) as (out & Hout & Hlen & _ & Hnew).
  rewrite Hout. eexists. split; [reflexivity |]. simpl.
  simpl in Hlen, Hnew.
  split; [exact Hlen |]. repeat (split; [reflexivity |]). exact Hnew.
Qed.

(** Against C1 as stated: a dataset with two sources, one pool and an empty
    values matrix gives the nine default triples, not 2 * 1; and one with
    fewer rows than pools gives no triples at all. *)
Lemma heatmapData_not_always_NxM :
  length (sources noValues) = 2 ∧ length (pools noValues) = 1
  ∧ heatmapData (Some noValues) false = Ok defaultResult
  ∧ length (data defaultResult) ≠ 2 * 1
  ∧ length (sources missingRow) = 1 ∧ length (pools missingRow) = 2
  ∧ heatmapData (Some missingRow) false = Throw TypeError.
Proof.
  repeat split; try reflexivity. simpl. lia.
Qed.

(** C1 (amended): for a dataset with N > 0 sources, M > 0 pools and a
    values matrix with a row for each pool, the matrix builder returns
    exactly N*M triples in source-major order: for all i < N and j < M the
    triple at position i*M + j is [i, j, x], where x is the entry of row j
    of the values matrix at column i, or undefined when that row has no
    such column. *)
Theorem heatmapData_source_major (d : HeatmapJsonDataset) (cfg : bool) :
  0 < length (sources d) → 0 < length (pools d) →
  length (pools d) ≤ length (valuesBps d) →
  ∃ r,
    heatmapData (Some d) cfg = Ok r
    ∧ length (data r) = length (sources d) * length (pools d)
    ∧ (∀ i j, i < length (sources d) → j < length (pools d) →
         ∃ row, valuesBps d !! j = Some row
                ∧ data r !! (i * length (pools d) + j)
                  = Some [JNum (Z.of_nat i); JNum (Z.of_nat j);
                          match row !! i with
                          | Some x => JNum x
                          | None => JUndefined
                          end]).
Proof.
  intros Hs Hp Hv.
  destruct (heatmapData_built d cfg Hs Hp Hv) as (r & Hr & Hlen & _ & _ & _ & _ & Hat).
  exists r. split; [exact Hr |]. split; [exact Hlen |].
  intros i j Hi Hj. destruct (Hat i j Hi Hj) as (v & Hval & Hk).
  unfold valueAt in Hval.
  destruct (valuesBps d !! j) as [row |]; [| discriminate Hval].
  injection Hval as <-. exists row. split; [reflexivity | exact Hk].
Qed.

Lemma heatmapData_source_major_witness :
  ∃ r,
    heatmapData (Some twoByThree) false = Ok r
    ∧ length (data r) = 6
    ∧ data r !! 5 = Some [JNum 1; JNum 2; JNum 6].
Proof.
  destruct (heatmapData_source_major twoByThree false) as (r & Hr & Hlen & Hat);
    [simpl; lia | simpl; lia | simpl; lia |].
  exists r. split; [exact Hr |]. split; [exact Hlen |].
  destruct (Hat 1 2) as (row & Hrow & Hk); [simpl; lia | simpl; lia |].
  injection Hrow as <-. exact Hk.
Defined.

(** The generator ignores its configuration and returns the literal
    default. *)
Lemma generateHeatmapData_value (config : HeatmapDataConfig) :
  generateHeatmapData config = Ok defaultResult.
Proof. reflexivity. Qed.

Lemma heatmapData_empty (d : HeatmapJsonDataset) (cfg : bool) :
  sources d = [] ∨ pools d = [] ∨ valuesBps d = [] →
  heatmapData (Some d) cfg
  = generateHeatmapData {| showNegativeFunding := cfg |}.
Proof. intros Hempty. unfold heatmapData. by rewrite guard_false. Qed.

(** C2: for a null dataset and for any dataset whose sources, pools or
    values sequence is empty, the matrix builder returns, whatever the
    configuration, the fixed default: sources HYPERCORE, PYTH, REDSTONE,
    three pool labels, and nine triples which are the source-major reading
    of the constant matrix [[12,25,-8],[5,18,3],[-4,10,37]]. *)
Theorem heatmapData_fallback_default (cfg : bool) :
  heatmapData None cfg = Ok defaultResult
  ∧ (∀ d : HeatmapJsonDataset,
       sources d = [] ∨ pools d = [] ∨ valuesBps d = [] →
       heatmapData (Some d) cfg = Ok defaultResult)
  ∧ (∀ config, generateHeatmapData config = Ok defaultResult)
  ∧ xAxisLabels defaultResult = ["HYPERCORE"; "PYTH"; "REDSTONE"]
  ∧ length (yAxisLabels defaultResult) = 3
  ∧ length (data defaultResult) = 9
  ∧ (∀ i j, i < 3 → j < 3 →
       ∃ v, valueAt [[Int 12; Int 25; Int (-8)];
                     [Int 5; Int 18; Int 3];
                     [Int (-4); Int 10; Int 37]] j i = Ok v
            ∧ data defaultResult !! (i * 3 + j) = Some (triple i j v)).
Proof.
  split; [reflexivity |]. split.
  { intros d Hempty. rewrite heatmapData_empty by exact Hempty. reflexivity. }
  split; [intros config; reflexivity |].
  repeat (split; [reflexivity |]).
  intros i j Hi Hj.
  destruct i as [| [| [| i]]]; [| | | lia];
    (destruct j as [| [| [| j]]]; [| | | lia]);
    eexists; (split; [reflexivity | reflexivity]).
Qed.

Lemma heatmapData_fallback_default_witness :
  heatmapData (Some noPools) true = Ok defaultResult.
Proof.
  apply (proj1 (proj2 (heatmapData_fallback_default true)) noPools).
  right. left. reflexivity.
Defined.

(** Against C9 as stated: a dataset with two sources and a row of one
    number breaks the shape invariant and yet is not replaced by the
    default: the builder emits its two triples, the second with
    [undefined]. *)
Lemma heatmapData_shortRow_not_default :
  shapeInvariant shortRow = false
  ∧ heatmapData (Some shortRow) false
    = Ok {| data := [[JNum 0; JNum 0; JNum 7]; [JNum 1; JNum 0; JUndefined]];
            lpSteps := 2; fundingSteps := 1;
            xAxisLabels := ["HYPERCORE"; "PYTH"]; yAxisLabels := ["P1"] |}
  ∧ heatmapData (Some shortRow) false
    ≠ generateHeatmapData {| showNegativeFunding := false |}.
Proof.
  split; [reflexivity |]. split; [reflexivity |].
  intros Heq. discriminate Heq.
Qed.

(** A dataset with fewer rows than pools makes the builder throw. *)
Lemma heatmapData_missing_row_throws (d : HeatmapJsonDataset) (cfg : bool) :
  0 < length (sources d) → 0 < length (valuesBps d) →
  length (valuesBps d) < length (pools d) →
  heatmapData (Some d) cfg = Throw TypeError.
Proof.
  intros Hs Hv Hlt. unfold heatmapData. rewrite guard_true by lia.
  unfold buildData. by rewrite sourceLoop_throw.
Qed.

Example heatmapData_missingRow :
  shapeInvariant missingRow = false
  ∧ heatmapData (Some missingRow) false = Throw TypeError.
Proof. split; reflexivity. Qed.

(** C9 (amended): the builder falls back to the hardcoded 3x3 default for
    an absent dataset and for one whose sources, pools or values sequence is
    empty; a dataset with non-empty sources and pools and a row for every
    pool is used as it is, with its own labels and N*M triples, whether or
    not the shape invariant holds. *)
Theorem heatmapData_fallback_only_when_empty (cfg : bool) :
  heatmapData None cfg = Ok defaultResult
  ∧ lpSteps defaultResult = 3 ∧ fundingSteps defaultResult = 3
  ∧ (∀ d : HeatmapJsonDataset,
       sources d = [] ∨ pools d = [] ∨ valuesBps d = [] →
       heatmapData (Some d) cfg = Ok defaultResult)
  ∧ (∀ d : HeatmapJsonDataset,
       0 < length (sources d) → 0 < length (pools d) →
       length (pools d) ≤ length (valuesBps d) →
       ∃ r, heatmapData (Some d) cfg = Ok r
            ∧ xAxisLabels r = sources d
            ∧ yAxisLabels r = pools d
            ∧ lpSteps r = length (sources d)
            ∧ fundingSteps r = length (pools d)
            ∧ length (data r) = length (sources d) * length (pools d)).
Proof.
  split; [reflexivity |]. split; [reflexivity |]. split; [reflexivity |]. split.
  - intros d Hempty. rewrite heatmapData_empty by exact Hempty.
    apply generateHeatmapData_value.
  - intros d Hs Hp Hv.
    destruct (heatmapData_built d cfg Hs Hp Hv)
      as (r & Hr & Hlen & Hlp & Hf & Hx & Hy & _).
    exists r. repeat split; assumption.
Qed.

Lemma heatmapData_fallback_only_when_empty_witness :
  ∃ r, heatmapData (Some shortRow) false = Ok r
       ∧ xAxisLabels r = sources shortRow
       ∧ yAxisLabels r = pools shortRow
       ∧ lpSteps r = 2
       ∧ fundingSteps r = 1
       ∧ length (data r) = 2 * 1.
Proof.
  apply (proj2 (proj2 (proj2 (proj2 (heatmapData_fallback_only_when_empty false))))
           shortRow); simpl; lia.
Defined.

(** ** The polling effect *)

(** *** What each operation leaves alone *)

Lemma fetchData_frame (e : nat) (now : Z) (s : State) :
  effects (fetchData e now s) = effects s
  ∧ timers (fetchData e now s) = timers s
  ∧ nextTimer (fetchData e now s) = nextTimer s
  ∧ current (fetchData e now s) = current s
  ∧ dataset (fetchData e now s) = dataset s
  ∧ lastUpdatedAt (fetchData e now s) = lastUpdatedAt s
  ∧ selectedToken (fetchData e now s) = selectedToken s.
Proof. unfold fetchData. destruct (effects s !! e); simpl; auto 10. Qed.

Lemma fetchData_pending (e : nat) (now : Z) (s : State) (r : nat) (rq : Request) :
  pending (fetchData e now s) !! r = Some rq →
  pending s !! r = Some rq
  ∨ (requestEffect rq = e ∧ e < length (effects s)).
Proof.
  unfold fetchData. destruct (effects s !! e) as [c |] eqn:He; simpl.
  - rewrite lookup_insert. case_decide as Hr.
    + intros [= <-]. right. simpl. split; [reflexivity |].
      by apply lookup_lt_Some in He.
    + auto.
  - auto.
Qed.

Lemma resume_frame (r : nat) (o : FetchOutcome) (now : Z) (s : State) :
  effects (resume r o now s) = effects s
  ∧ timers (resume r o now s) = timers s
  ∧ nextTimer (resume r o now s) = nextTimer s
  ∧ current (resume r o now s) = current s
  ∧ selectedToken (resume r o now s) = selectedToken s.
Proof.
  unfold resume. destruct (pending s !! r); [| auto].
  destruct (tryBlock o); destruct (negb _); simpl; auto.
Qed.

Lemma resume_pending (r : nat) (o : FetchOutcome) (now : Z) (s : State)
    (r' : nat) (rq : Request) :
  pending (resume r o now s) !! r' = Some rq → pending s !! r' = Some rq.
Proof.
  unfold resume. destruct (pending s !! r) eqn:Hr; [| auto].
  destruct (tryBlock o); destruct (negb _); simpl;
    rewrite lookup_delete; case_decide; congruence.
Qed.

(** A continuation of a cancelled run changes neither the dataset nor the
    timestamp; one of a live run commits the document or clears the dataset. *)
Lemma resume_commit (r : nat) (rq : Request) (o : FetchOutcome) (now : Z) (s : State) :
  pending s !! r = Some rq →
  let s' := resume r o now s in
  if cancelledOf s (requestEffect rq)
  then dataset s' = dataset s ∧ lastUpdatedAt s' = lastUpdatedAt s
  else match tryBlock o with
       | Some json => dataset s' = Some json ∧ lastUpdatedAt s' = Some now
       | None => dataset s' = None ∧ lastUpdatedAt s' = lastUpdatedAt s
       end.
Proof.
  intros Hr. unfold resume. rewrite Hr.
  change (cancelledOf (withPending (delete r (pending s)) (nextRequest s) s)
            (requestEffect rq))
    with (cancelledOf s (requestEffect rq)).
  destruct (cancelledOf s (requestEffect rq)); destruct (tryBlock o); simpl; auto.
Qed.

(** The effect body, in one record. *)
Lemma runEffect_eq (now : Z) (s : State) :
  runEffect now s
  = {| selectedToken := selectedToken s;
       dataset := dataset s;
       lastUpdatedAt := lastUpdatedAt s;
       effects := effects s ++ [{| isCancelled := false;
                                   intervalId := nextTimer s;
                                   effectToken := selectedToken s |}];
       current := Some (length (effects s));
       timers := <[nextTimer s := length (effects s)]> (timers s);
       nextTimer := S (nextTimer s);
       pending := <[nextRequest s :=
                      {| requestEffect := length (effects s);
                         requestUrlOf := requestUrl (selectedToken s) now |}]>
                    (pending s);
       nextRequest := S (nextRequest s) |}.
Proof.
  unfold runEffect, fetchData. simpl.
  rewrite list_lookup_middle by reflexivity. simpl.
  rewrite insert_app_r_alt by lia. rewrite Nat.sub_diag. reflexivity.
Qed.

(** The clean-up of a run that holds a timer id, in one record. *)
Lemma cleanup_eq (e : nat) (c : EffectClosure) (s : State) :
  effects s !! e = Some c → intervalId c ≠ 0 →
  cleanup e s
  = {| selectedToken := selectedToken s;
       dataset := dataset s;
       lastUpdatedAt := lastUpdatedAt s;
       effects := <[e := {| isCancelled := true; intervalId := intervalId c;
                            effectToken := effectToken c |}]> (effects s);
       current := current s;
       timers := delete (intervalId c) (timers s);
       nextTimer := nextTimer s;
       pending := pending s;
       nextRequest := nextRequest s |}.
Proof.
  intros He Hid. unfold cleanup. rewrite He.
  destruct (Nat.eqb_spec (intervalId c) 0) as [H0 | _]; [contradiction |].
  reflexivity.
Qed.

(** *** The invariant *)

Lemma quiescent_initial : quiescent initial.
Proof.
  split; simpl.
  - intros r rq H. by rewrite lookup_empty in H.
  - split; [lia |]. intros e c H. by rewrite lookup_nil in H.
  - intros tid. apply lookup_empty.
  - intros e c H. by rewrite lookup_nil in H.
Qed.

Lemma quiescent_setSelectedToken (t : TokenType) (s : State) :
  quiescent s → quiescent (setSelectedToken t s).
Proof. intros [H1 H2 H3 H4]. split; assumption. Qed.

Lemma consistent_runEffect (now : Z) (s : State) :
  quiescent s → consistent (runEffect now s).
Proof.
  intros [Hp [Hn Hids] Ht Hall]. rewrite runEffect_eq. split; simpl.
  - intros r rq [[_ <-] | [_ Hold]]%lookup_insert_Some; rewrite length_app; simpl.
    + lia.
    + specialize (Hp r rq Hold). lia.
  - split; [lia |].
    intros e c [[_ Hold] | [_ <-]]%lookup_snoc_Some; simpl.
    + specialize (Hids e c Hold). lia.
    + lia.
  - intros tid e [[<- <-] | [_ Hold]]%lookup_insert_Some.
    + split; [reflexivity |]. eexists. split; [apply list_lookup_middle; reflexivity |].
      reflexivity.
    + by rewrite Ht in Hold.
  - intros e [= <-]. eexists. split; [apply list_lookup_middle; reflexivity |].
    simpl. split; [reflexivity |]. apply lookup_insert_eq.
  - intros e c [[_ Hold] | [-> _]]%lookup_snoc_Some Hne.
    + by apply (Hall e c).
    + congruence.
Qed.

Lemma quiescent_cleanup (e : nat) (s : State) :
  consistent s → current s = Some e → quiescent (cleanup e s).
Proof.
  intros [Hp [Hn Hids] Ht Hcur Hoth] He.
  destruct (Hcur e He) as (c & Hc & Hlive & Htimer).
  rewrite (cleanup_eq e c s Hc) by (specialize (Hids e c Hc); lia).
  split; simpl.
  - intros r rq Hr. rewrite length_insert. by apply (Hp r rq).
  - split; [exact Hn |].
    intros e' c' [(<- & <- & _) | [_ Hold]]%list_lookup_insert_Some; simpl.
    + by apply (Hids e c).
    + by apply (Hids e' c').
  - intros tid. destruct (delete (intervalId c) (timers s) !! tid) as [e' |] eqn:Hd;
      [| reflexivity].
    apply lookup_delete_Some in Hd as [Hne Hold].
    destruct (Ht tid e' Hold) as (Hcur' & c' & Hc' & Hid').
    assert (e' = e) as -> by congruence.
    assert (c' = c) as -> by congruence.
    congruence.
  - intros e' c' [(<- & <- & _) | [Hne Hold]]%list_lookup_insert_Some; simpl.
    + reflexivity.
    + apply (Hoth e' c' Hold). congruence.
Qed.

Lemma consistent_unmounted (s : State) :
  quiescent s → consistent (withCurrent None s).
Proof.
  intros [Hp Hids Ht Hall]. split; simpl.
  - exact Hp.
  - exact Hids.
  - intros tid e H. by rewrite Ht in H.
  - intros e H. discriminate H.
  - intros e c Hc _. by apply (Hall e c).
Qed.

Lemma consistent_fetchData (e : nat) (now : Z) (s : State) :
  consistent s → consistent (fetchData e now s).
Proof.
  intros [Hp Hids Ht Hcur Hoth].
  destruct (fetchData_frame e now s) as (He & Hti & Hn & Hc & _).
  split; rewrite ?He, ?Hti, ?Hn, ?Hc; try assumption.
  intros r rq [Hold | [-> Hlt]]%fetchData_pending.
  - by apply (Hp r rq).
  - exact Hlt.
Qed.

Lemma consistent_resume (r : nat) (o : FetchOutcome) (now : Z) (s : State) :
  consistent s → consistent (resume r o now s).
Proof.
  intros [Hp Hids Ht Hcur Hoth].
  destruct (resume_frame r o now s) as (He & Hti & Hn & Hc & _).
  split; rewrite ?He, ?Hti, ?Hn, ?Hc; try assumption.
  intros r' rq Hr'%resume_pending. by apply (Hp r' rq).
Qed.

Lemma consistent_step (s : State) (ev : Event) :
  consistent s → consistent (step s ev).
Proof.
  intros Hs. destruct ev as [timer now | r o now | t now |]; simpl.
  - destruct (timers s !! timer); [by apply consistent_fetchData | exact Hs].
  - by apply consistent_resume.
  - destruct (current s) as [e |] eqn:He; [| exact Hs].
    destruct (TokenType_eqb t (selectedToken s)); [exact Hs |].
    apply consistent_runEffect, quiescent_setSelectedToken.
    by apply quiescent_cleanup.
  - destruct (current s) as [e |] eqn:He; [| exact Hs].
    apply consistent_unmounted. by apply quiescent_cleanup.
Qed.

Lemma consistent_run (evs : list Event) :
  ∀ s, consistent s → consistent (run s evs).
Proof.
  induction evs as [| ev evs IH]; intros s Hs; simpl.
  - exact Hs.
  - apply IH. by apply consistent_step.
Qed.

Lemma consistent_reachable (s : State) : reachable s → consistent s.
Proof.
  intros (now & evs & ->). apply consistent_run.
  apply consistent_runEffect, quiescent_initial.
Qed.

(** *** Reading the cancellation flag *)

Lemma cancelledOf_current (s : State) (e : nat) :
  consistent s → current s = Some e → cancelledOf s e = false.
Proof.
  intros Hs He. destruct (cons_current s Hs e He) as (c & Hc & Hlive & _).
  unfold cancelledOf. by rewrite Hc.
Qed.

Lemma cancelledOf_other (s : State) (e : nat) :
  consistent s → e < length (effects s) → current s ≠ Some e →
  cancelledOf s e = true.
Proof.
  intros Hs Hlt Hne. destruct (lookup_lt_is_Some_2 _ _ Hlt) as [c Hc].
  unfold cancelledOf. rewrite Hc. by apply (cons_others s Hs e c).
Qed.

Lemma cancelledOf_lt (s : State) (e : nat) :
  cancelledOf s e = true → e < length (effects s).
Proof.
  unfold cancelledOf. destruct (effects s !! e) as [c |] eqn:Hc; [| discriminate].
  intros _. by apply lookup_lt_Some in Hc.
Qed.

Lemma cleanup_frame (e : nat) (s : State) :
  pending (cleanup e s) = pending s
  ∧ length (effects (cleanup e s)) = length (effects s)
  ∧ selectedToken (cleanup e s) = selectedToken s
  ∧ dataset (cleanup e s) = dataset s
  ∧ lastUpdatedAt (cleanup e s) = lastUpdatedAt s.
Proof.
  unfold cleanup. destruct (effects s !! e) as [c |]; [| auto].
  destruct (negb _); simpl; rewrite length_insert; auto.
Qed.

Lemma cancelledOf_cleanup_self (e : nat) (s : State) :
  e < length (effects s) → cancelledOf (cleanup e s) e = true.
Proof.
  intros Hlt. destruct (lookup_lt_is_Some_2 _ _ Hlt) as [c Hc].
  unfold cleanup. rewrite Hc.
  destruct (negb _); unfold cancelledOf; simpl;
    by rewrite list_lookup_insert_eq.
Qed.

Lemma cancelledOf_cleanup (e0 e : nat) (s : State) :
  cancelledOf s e = true → cancelledOf (cleanup e0 s) e = true.
Proof.
  intros Hc. destruct (decide (e0 = e)) as [-> | Hne].
  - apply cancelledOf_cleanup_self. by apply cancelledOf_lt.
  - unfold cleanup. destruct (effects s !! e0) as [c |]; [| exact Hc].
    destruct (negb _); unfold cancelledOf; simpl;
      by rewrite list_lookup_insert_ne.
Qed.

Lemma cancelledOf_runEffect (now : Z) (e : nat) (s : State) :
  cancelledOf s e = true → cancelledOf (runEffect now s) e = true.
Proof.
  intros Hc. pose proof (cancelledOf_lt s e Hc) as Hlt.
  rewrite runEffect_eq. unfold cancelledOf in *. simpl.
  by rewrite lookup_app_l.
Qed.

(** A flag once set stays set. *)
Lemma cancelledOf_step (s : State) (ev : Event) (e : nat) :
  cancelledOf s e = true → cancelledOf (step s ev) e = true.
Proof.
  intros Hc. destruct ev as [timer now | r o now | t now |]; simpl.
  - destruct (timers s !! timer) as [e' |]; [| exact Hc].
    unfold cancelledOf. by rewrite (proj1 (fetchData_frame e' now s)).
  - unfold cancelledOf. by rewrite (proj1 (resume_frame r o now s)).
  - destruct (current s) as [e0 |]; [| exact Hc].
    destruct (TokenType_eqb t (selectedToken s)); [exact Hc |].
    apply cancelledOf_runEffect.
    by apply (cancelledOf_cleanup e0 e s) in Hc.
  - destruct (current s) as [e0 |]; [| exact Hc].
    by apply (cancelledOf_cleanup e0 e s) in Hc.
Qed.

Lemma cancelledOf_run (evs : list Event) (e : nat) :
  ∀ s, cancelledOf s e = true → cancelledOf (run s evs) e = true.
Proof.
  induction evs as [| ev evs IH]; intros s Hc; simpl; [exact Hc |].
  apply IH. by apply cancelledOf_step.
Qed.

(** A cancelled run holds no timer. *)
Lemma cancelled_no_timer (s : State) (e timer : nat) :
  consistent s → cancelledOf s e = true → timers s !! timer ≠ Some e.
Proof.
  intros Hs Hc Ht. destruct (cons_timers s Hs timer e Ht) as [Hcur _].
  rewrite (cancelledOf_current s e Hs Hcur) in Hc. discriminate Hc.
Qed.

(** Where the requests in flight after an event come from: they were in
    flight before, or a timer of their run fired, or their run is new. *)
Lemma step_pending (s : State) (ev : Event) (r : nat) (rq : Request) :
  pending (step s ev) !! r = Some rq →
  pending s !! r = Some rq
  ∨ (∃ timer now, ev = Tick timer now ∧ timers s !! timer = Some (requestEffect rq))
  ∨ length (effects s) ≤ requestEffect rq.
Proof.
  destruct ev as [timer now | r' o now | t now |]; simpl.
  - destruct (timers s !! timer) as [e' |] eqn:Ht; [| auto].
    intros [Hold | [<- _]]%fetchData_pending; [auto |].
    right. left. eauto.
  - intros Hold%resume_pending. auto.
  - destruct (current s) as [e0 |]; [| auto].
    destruct (TokenType_eqb t (selectedToken s)); [auto |].
    rewrite runEffect_eq. simpl.
    destruct (cleanup_frame e0 s) as (Hp & Hlen & _).
    rewrite Hp, Hlen.
    intros [[_ <-] | [_ Hold]]%lookup_insert_Some; simpl; auto.
  - destruct (current s) as [e0 |]; [| auto]. simpl.
    rewrite (proj1 (cleanup_frame e0 s)). auto.
Qed.

(** After a run has been cancelled, none of its requests is new. *)
Lemma cancelled_no_new_request (evs : list Event) (e : nat) :
  ∀ s, consistent s → cancelledOf s e = true →
    ∀ r rq, pending (run s evs) !! r = Some rq → requestEffect rq = e →
      pending s !! r = Some rq.
Proof.
  induction evs as [| ev evs IH]; intros s Hs Hc r rq Hr He; simpl in Hr;
    [exact Hr |].
  apply IH in Hr;
    [| by apply consistent_step | by apply cancelledOf_step | exact He].
  apply step_pending in Hr as [Hold | [(timer & now & _ & Ht) | Hge]].
  - exact Hold.
  - rewrite He in Ht. by destruct (cancelled_no_timer s e timer Hs Hc).
  - apply cancelledOf_lt in Hc. lia.
Qed.

(** The event that ends a run sets its flag. *)
Lemma ending_event_cancels (s : State) (e : nat) (ev : Event) :
  consistent s → current s = Some e →
  (ev = Unmount ∨ ∃ t now, ev = Select t now ∧ t ≠ selectedToken s) →
  cancelledOf (step s ev) e = true.
Proof.
  intros Hs He Hev.
  assert (Hlt : e < length (effects s)).
  { destruct (cons_current s Hs e He) as (c & Hc & _). by apply lookup_lt_Some in Hc. }
  destruct Hev as [-> | (t & now & -> & Hne)]; simpl; rewrite He.
  - by apply (cancelledOf_cleanup_self e s).
  - destruct (TokenType_eqb t (selectedToken s)) eqn:Heq.
    + destruct t, (selectedToken s); simpl in Heq; congruence.
    + apply cancelledOf_runEffect. by apply (cancelledOf_cleanup_self e s).
Qed.

(** *** Failed fetches *)

(** The [catch] clause is reached exactly on a network error, a status
    outside 200..299, or a body that does not parse. *)
Lemma tryBlock_failure (o : FetchOutcome) :
  tryBlock o = None
  ↔ o = NetworkError
    ∨ ∃ status body, o = Response status body ∧ (resOk status = false ∨ body = None).
Proof.
  split.
  - destruct o as [| status body]; simpl; [auto |].
    destruct (resOk status) eqn:Hok; intros H; right; exists status, body; auto.
  - intros [-> | (status & body & -> & [Hok | ->])]; simpl.
    + reflexivity.
    + by rewrite Hok.
    + by destruct (resOk status).
Qed.

(** C3: when a fetch fails (network error, non-success status such as 404,
    or a body that does not parse) and the run that issued it has not been
    cancelled, the held dataset becomes null, and the matrix built from it
    is the default 3x3 one with sources HYPERCORE, PYTH, REDSTONE; when the
    run has been cancelled the dataset is left as it was. *)
Theorem failed_fetch_clears_dataset
    (s : State) (request : nat) (rq : Request) (o : FetchOutcome) (now : Z)
    (cfg : bool) :
  pending s !! request = Some rq →
  (o = NetworkError
   ∨ ∃ status body,
       o = Response status body ∧ (resOk status = false ∨ body = None)) →
  resOk 404 = false
  ∧ (cancelledOf s (requestEffect rq) = false →
       dataset (step s (Settle request o now)) = None
       ∧ heatmapData (dataset (step s (Settle request o now))) cfg = Ok defaultResult
       ∧ xAxisLabels defaultResult = ["HYPERCORE"; "PYTH"; "REDSTONE"])
  ∧ (cancelledOf s (requestEffect rq) = true →
       dataset (step s (Settle request o now)) = dataset s).
Proof.
  intros Hr Hfail%tryBlock_failure. split; [reflexivity |].
  pose proof (resume_commit request rq o now s Hr) as Hc. simpl in Hc.
  rewrite Hfail in Hc. simpl.
  split; intros Hflag; rewrite Hflag in Hc; destruct Hc as [Hd _].
  - rewrite Hd. repeat split; reflexivity.
  - exact Hd.
Qed.

(** Selecting BTC sends a request for /data/heatmap/btc.json; when it is
    answered with 404 the dataset loaded before is dropped and the default
    matrix is shown. *)
Lemma failed_fetch_clears_dataset_witness :
  pending afterSelectBTC !! 1
  = Some {| requestEffect := 1; requestUrlOf := "/data/heatmap/btc.json?t=100" |}
  ∧ dataset afterSelectBTC = Some hypeOld
  ∧ dataset (step afterSelectBTC (Settle 1 (Response 404 None) 150)) = None
  ∧ heatmapData (dataset (step afterSelectBTC (Settle 1 (Response 404 None) 150))) false
    = Ok defaultResult
  ∧ xAxisLabels defaultResult = ["HYPERCORE"; "PYTH"; "REDSTONE"].
Proof.
  split; [vm_compute; reflexivity |]. split; [vm_compute; reflexivity |].
  refine (proj1 (proj2 (failed_fetch_clears_dataset afterSelectBTC 1
            {| requestEffect := 1; requestUrlOf := "/data/heatmap/btc.json?t=100" |}
            (Response 404 None) 150 false _ _)) _).
  - vm_compute. reflexivity.
  - right. exists 404, None. split; [reflexivity |]. left. reflexivity.
  - vm_compute. reflexivity.
Defined.

(** Against C4 as stated: a poll that fails while the run is live discards
    the dataset held before it. *)
Lemma poll_failure_discards_dataset :
  reachable afterFirstPoll
  ∧ dataset afterFirstPoll = Some hypeOld
  ∧ pending afterFirstPoll !! 1
    = Some {| requestEffect := 0; requestUrlOf := "/data/heatmap/hype.json?t=5000" |}
  ∧ cancelledOf afterFirstPoll 0 = false
  ∧ dataset (step afterFirstPoll (Settle 1 (Response 500 None) 5100)) = None
  ∧ dataset (step afterFirstPoll (Settle 1 (Response 500 None) 5100))
    ≠ dataset afterFirstPoll.
Proof.
  split; [eexists _, _; reflexivity |].
  repeat split; try (vm_compute; reflexivity).
  vm_compute. intros H. discriminate H.
Qed.

(** C4 (amended): when a poll-cycle fetch fails, the dataset held before is
    still held afterwards exactly when the run that issued the fetch has
    been cancelled or no dataset was held; for a live run the dataset is
    cleared. The time of the last update is not changed. *)
Theorem failed_fetch_keeps_dataset_only_if_cancelled
    (s : State) (request : nat) (rq : Request) (o : FetchOutcome) (now : Z) :
  pending s !! request = Some rq →
  tryBlock o = None →
  dataset (step s (Settle request o now))
  = (if cancelledOf s (requestEffect rq) then dataset s else None)
  ∧ (dataset (step s (Settle request o now)) = dataset s
     ↔ cancelledOf s (requestEffect rq) = true ∨ dataset s = None)
  ∧ lastUpdatedAt (step s (Settle request o now)) = lastUpdatedAt s.
Proof.
  intros Hr Hfail.
  pose proof (resume_commit request rq o now s Hr) as Hc. simpl in Hc.
  rewrite Hfail in Hc. simpl.
  destruct (cancelledOf s (requestEffect rq)); destruct Hc as [Hd Ht];
    rewrite Hd, Ht; (split; [reflexivity |]); (split; [| reflexivity]).
  - split; auto.
  - split; [intros <-; by right | intros [H | H]; [discriminate H | by rewrite H]].
Qed.

Lemma failed_fetch_keeps_dataset_only_if_cancelled_witness :
  dataset (step afterTokenChange (Settle 1 NetworkError 5200)) = Some hypeOld
  ∧ lastUpdatedAt (step afterTokenChange (Settle 1 NetworkError 5200)) = Some 40%Z.
Proof.
  destruct (failed_fetch_keeps_dataset_only_if_cancelled afterTokenChange 1
              {| requestEffect := 0; requestUrlOf := "/data/heatmap/hype.json?t=5000" |}
              NetworkError 5200) as (Hd & _ & Ht).
  - vm_compute. reflexivity.
  - reflexivity.
  - split.
    + rewrite Hd. vm_compute. reflexivity.
    + rewrite Ht. vm_compute. reflexivity.
Defined.

(** *** Order of commits *)

(** Against C5 as stated: two fetches of the same run for the same token
    are in flight; the newer one is answered first and commits, then the answer to the older
    one arrives and replaces the newer document. *)
Lemma stale_response_overwrites :
  reachable twoInFlight
  ∧ selectedToken twoInFlight = HYPE
  ∧ pending twoInFlight !! 0
    = Some {| requestEffect := 0; requestUrlOf := "/data/heatmap/hype.json?t=0" |}
  ∧ pending twoInFlight !! 1
    = Some {| requestEffect := 0; requestUrlOf := "/data/heatmap/hype.json?t=5000" |}
  ∧ dataset (run twoInFlight [Settle 1 (Response 200 (Some hypeNew)) 5100])
    = Some hypeNew
  ∧ dataset (run twoInFlight [Settle 1 (Response 200 (Some hypeNew)) 5100;
                              Settle 0 (Response 200 (Some hypeOld)) 5200])
    = Some hypeOld
  ∧ hypeOld ≠ hypeNew.
Proof.
  split; [eexists _, _; reflexivity |].
  repeat split; try (vm_compute; reflexivity).
  intros H. discriminate H.
Qed.

(** C5 (amended): a document that arrives for a fetch issued by the current
    run of the effect is committed, together with its arrival time, whatever
    other fetches of that run are in flight or have committed before; a
    document that arrives for a fetch of an earlier run is dropped. *)
Theorem commit_decided_by_run_only
    (s : State) (request : nat) (rq : Request) (status : nat)
    (json : HeatmapJsonDataset) (now : Z) :
  reachable s →
  pending s !! request = Some rq →
  resOk status = true →
  (current s = Some (requestEffect rq) →
     dataset (step s (Settle request (Response status (Some json)) now)) = Some json
     ∧ lastUpdatedAt (step s (Settle request (Response status (Some json)) now))
       = Some now)
  ∧ (current s ≠ Some (requestEffect rq) →
       dataset (step s (Settle request (Response status (Some json)) now)) = dataset s
       ∧ lastUpdatedAt (step s (Settle request (Response status (Some json)) now))
         = lastUpdatedAt s).
Proof.
  intros Hs%consistent_reachable Hr Hok.
  pose proof (resume_commit request rq (Response status (Some json)) now s Hr) as Hc.
  simpl in Hc. rewrite Hok in Hc. simpl.
  split; intros Hcur.
  - by rewrite (cancelledOf_current s _ Hs Hcur) in Hc.
  - rewrite (cancelledOf_other s (requestEffect rq) Hs) in Hc; [exact Hc | | exact Hcur].
    by apply (cons_pending s Hs request rq).
Qed.

Lemma commit_decided_by_run_only_witness :
  dataset (step (step twoInFlight (Settle 1 (Response 200 (Some hypeNew)) 5100))
             (Settle 0 (Response 200 (Some hypeOld)) 5200))
  = Some hypeOld.
Proof.
  refine (proj1 (proj1 (commit_decided_by_run_only
            (step twoInFlight (Settle 1 (Response 200 (Some hypeNew)) 5100)) 0
            {| requestEffect := 0; requestUrlOf := "/data/heatmap/hype.json?t=0" |}
            200 hypeOld 5200 _ _ _) _)).
  - exists 0%Z, [Tick 1 5000; Settle 1 (Response 200 (Some hypeNew)) 5100].
    reflexivity.
  - vm_compute. reflexivity.
  - reflexivity.
  - vm_compute. reflexivity.
Defined.

(** *** Token change and unmount *)

(** C6: once the selected token has changed (or the component has been
    unmounted) while run e of the effect was the current one, then after
    any further events: the flag of run e is set; no timer calls the
    fetchData of run e; every request of run e still in flight was already in
    flight before the change; and when such a request settles, with any
    outcome, neither the dataset nor the time of the last update changes. *)
Theorem cancelled_run_never_commits
    (s : State) (e : nat) (ev : Event) (evs : list Event) :
  reachable s →
  current s = Some e →
  (ev = Unmount ∨ ∃ t now, ev = Select t now ∧ t ≠ selectedToken s) →
  cancelledOf (run (step s ev) evs) e = true
  ∧ (∀ timer, timers (run (step s ev) evs) !! timer ≠ Some e)
  ∧ (∀ request rq,
       pending (run (step s ev) evs) !! request = Some rq →
       requestEffect rq = e →
       pending s !! request = Some rq
       ∧ ∀ o now,
           dataset (step (run (step s ev) evs) (Settle request o now))
           = dataset (run (step s ev) evs)
           ∧ lastUpdatedAt (step (run (step s ev) evs) (Settle request o now))
             = lastUpdatedAt (run (step s ev) evs)).
Proof.
  intros Hs%consistent_reachable He Hev.
  pose proof (ending_event_cancels s e ev Hs He Hev) as Hc1.
  pose proof (consistent_step s ev Hs) as Hs1.
  pose proof (cancelledOf_run evs e _ Hc1) as Hc2.
  pose proof (consistent_run evs _ Hs1) as Hs2.
  split; [exact Hc2 |]. split.
  - intros timer. by apply cancelled_no_timer.
  - intros request rq Hr Hrq. split.
    + pose proof (cancelled_no_new_request evs e _ Hs1 Hc1 request rq Hr Hrq) as Hr1.
      apply step_pending in Hr1 as [Hold | [(timer & now & -> & _) | Hge]].
      * exact Hold.
      * destruct Hev as [Hev | (t & now' & Hev & _)]; discriminate Hev.
      * destruct (cons_current s Hs e He) as (c & Hlook & _).
        apply lookup_lt_Some in Hlook. lia.
    + intros o now.
      pose proof (resume_commit request rq o now _ Hr) as Hc. simpl in Hc.
      rewrite Hrq, Hc2 in Hc. exact Hc.
Qed.

Lemma cancelled_run_never_commits_witness :
  cancelledOf afterTokenChange 0 = true
  ∧ timers afterTokenChange !! 1 = None
  ∧ dataset (step afterTokenChange (Settle 1 (Response 200 (Some hypeNew)) 5200))
    = dataset afterTokenChange.
Proof.
  destruct (cancelled_run_never_commits afterFirstPoll 0 (Select BTC 5100) [])
    as (Hflag & Htimer & Hreq).
  - exists 0%Z, [Settle 0 (Response 200 (Some hypeOld)) 40; Tick 1 5000].
    reflexivity.
  - vm_compute. reflexivity.
  - right. exists BTC, 5100%Z. split; [reflexivity |].
    vm_compute. intros H. discriminate H.
  - split; [exact Hflag |]. split; [vm_compute; reflexivity |].
    refine (proj1 (proj2 (Hreq 1
              {| requestEffect := 0; requestUrlOf := "/data/heatmap/hype.json?t=5000" |}
              _ _) (Response 200 (Some hypeNew)) 5200%Z)).
    + vm_compute. reflexivity.
    + reflexivity.
Defined.

(* ===================================================================== *)
(** * Further properties of the code                                      *)
(* ===================================================================== *)

(** ** Matrix builder: errors and the shape of the result *)

Lemma length_pos_or_nil {A} (l : list A) : 0 < length l ∨ l = [].
Proof. destruct l; simpl; [by right | left; lia]. Qed.

(** X1: the matrix builder throws exactly when the three sequences of the
    dataset are non-empty and the values matrix has fewer rows than there
    are pools; the error is then a TypeError. In every other case (no
    dataset included) it returns a matrix. *)
Theorem heatmapData_throws_iff
    (ds : option HeatmapJsonDataset) (cfg : bool) (e : string) :
  heatmapData ds cfg = Throw e
  ↔ e = TypeError
    ∧ ∃ d, ds = Some d
           ∧ 0 < length (sources d)
           ∧ 0 < length (valuesBps d)
           ∧ length (valuesBps d) < length (pools d).
Proof.
  split.
  - destruct ds as [d |]; [| intros H; discriminate H].
    destruct (length_pos_or_nil (sources d)) as [Hs | Hs];
      [| rewrite heatmapData_empty by auto; intros H; discriminate H].
    destruct (length_pos_or_nil (pools d)) as [Hp | Hp];
      [| rewrite heatmapData_empty by auto; intros H; discriminate H].
    destruct (length_pos_or_nil (valuesBps d)) as [Hv | Hv];
      [| rewrite heatmapData_empty by auto; intros H; discriminate H].
    destruct (decide (length (pools d) ≤ length (valuesBps d))) as [Hle | Hgt].
    + destruct (heatmapData_built d cfg Hs Hp Hle) as (r & -> & _).
      intros H. discriminate H.
    + rewrite heatmapData_missing_row_throws by lia.
      intros [= <-]. split; [reflexivity |]. exists d. repeat split; lia.
  - intros (-> & d & -> & Hs & Hv & Hlt).
    by apply heatmapData_missing_row_throws.
Qed.

Lemma heatmapData_throws_iff_witness :
  heatmapData (Some missingRow) true = Throw TypeError.
Proof.
  apply (proj2 (heatmapData_throws_iff (Some missingRow) true TypeError)).
  split; [reflexivity |]. exists missingRow. simpl. repeat split; lia.
Defined.

(** Every returned matrix is the one built from some dataset with non-empty
    sources and pools and a row for every pool: the dataset given, or the
    constants of the generator. *)
Lemma heatmapData_origin
    (ds : option HeatmapJsonDataset) (cfg : bool) (r : HeatmapDataResult) :
  heatmapData ds cfg = Ok r →
  ∃ d, heatmapData (Some d) cfg = Ok r
       ∧ 0 < length (sources d) ∧ 0 < length (pools d)
       ∧ length (pools d) ≤ length (valuesBps d)
       ∧ (ds = Some d ∨ d = defaultDataset).
Proof.
  assert (Hdef : ∀ r', generateHeatmapData {| showNegativeFunding := cfg |} = Ok r' →
            ∃ d, heatmapData (Some d) cfg = Ok r'
                 ∧ 0 < length (sources d) ∧ 0 < length (pools d)
                 ∧ length (pools d) ≤ length (valuesBps d)
                 ∧ (ds = Some d ∨ d = defaultDataset)).
  { intros r' Hr'. exists defaultDataset. split; [exact Hr' |].
    simpl. repeat split; try lia. by right. }
  destruct ds as [d |]; [| apply Hdef].
  destruct (length_pos_or_nil (sources d)) as [Hs | Hs];
    [| rewrite heatmapData_empty by auto; apply Hdef].
  destruct (length_pos_or_nil (pools d)) as [Hp | Hp];
    [| rewrite heatmapData_empty by auto; apply Hdef].
  destruct (length_pos_or_nil (valuesBps d)) as [Hv | Hv];
    [| rewrite heatmapData_empty by auto; apply Hdef].
  destruct (decide (length (pools d) ≤ length (valuesBps d))) as [Hle | Hgt].
  - intros Hr. exists d. repeat split; try assumption. by left.
  - rewrite heatmapData_missing_row_throws by lia. intros H. discriminate H.
Qed.

(** A position below N*M splits into a source index and a pool index. *)
Lemma flat_position (n m k : nat) :
  k < n * m → k = k / m * m + k mod m ∧ k / m < n ∧ k mod m < m.
Proof.
  intros Hk. assert (Hm : m ≠ 0) by (intros ->; lia).
  split; [| split].
  - rewrite (Nat.div_mod_eq k m) at 1. lia.
  - apply Nat.Div0.div_lt_upper_bound. lia.
  - by apply Nat.mod_upper_bound.
Qed.

(** X2: whatever the input, a matrix the builder returns is never empty: it
    has lpSteps * fundingSteps triples with both factors positive and equal
    to the numbers of axis labels, and the entry at position k is the triple
    of source k / fundingSteps and pool k mod fundingSteps. *)
Theorem heatmapData_result_shape
    (ds : option HeatmapJsonDataset) (cfg : bool) (r : HeatmapDataResult) :
  heatmapData ds cfg = Ok r →
  lpSteps r = length (xAxisLabels r)
  ∧ fundingSteps r = length (yAxisLabels r)
  ∧ 0 < lpSteps r ∧ 0 < fundingSteps r
  ∧ length (data r) = lpSteps r * fundingSteps r
  ∧ ∀ k item, data r !! k = Some item →
      ∃ v, item = [JNum (Z.of_nat (k / fundingSteps r));
                   JNum (Z.of_nat (k mod fundingSteps r)); v].
Proof.
  intros (d & Hr & Hs & Hp & Hle & _)%heatmapData_origin.
  destruct (heatmapData_built d cfg Hs Hp Hle)
    as (r' & Hr' & Hlen & Hlp & Hf & Hx & Hy & Hat).
  rewrite Hr in Hr'. injection Hr' as <-.
  rewrite Hlp, Hf, Hx, Hy. repeat split; try assumption.
  intros k item Hk.
  pose proof (lookup_lt_Some _ _ _ Hk) as Hlt. rewrite Hlen in Hlt.
  destruct (flat_position _ _ _ Hlt) as (Heq & Ha & Hb).
  destruct (Hat _ _ Ha Hb) as (v & _ & Hitem).
  rewrite <- Heq, Hk in Hitem. injection Hitem as ->. by exists v.
Qed.

Lemma heatmapData_result_shape_witness :
  ∃ r, heatmapData (Some shortRow) false = Ok r
       ∧ length (data r) = 2 * 1
       ∧ ∃ v, data r !! 1 = Some [JNum 1; JNum 0; v].
Proof.
  exists {| data := [[JNum 0; JNum 0; JNum 7]; [JNum 1; JNum 0; JUndefined]];
            lpSteps := 2; fundingSteps := 1;
            xAxisLabels := ["HYPERCORE"; "PYTH"]; yAxisLabels := ["P1"] |}.
  split; [reflexivity |].
  destruct (heatmapData_result_shape (Some shortRow) false _ eq_refl)
    as (_ & _ & _ & _ & Hlen & Hat).
  split; [exact Hlen |].
  destruct (Hat 1 _ eq_refl) as [v Hv]. exists v.
  injection Hv as <-. reflexivity.
Defined.

(** What the shape invariant says about the values matrix. *)
Lemma shapeInvariant_spec (d : HeatmapJsonDataset) :
  shapeInvariant d = true →
  length (valuesBps d) = length (pools d)
  ∧ ∀ j row, valuesBps d !! j = Some row → length row = length (sources d).
Proof.
  unfold shapeInvariant. intros [Hrows Hcols]%andb_true_iff.
  apply Nat.eqb_eq in Hrows. split; [exact Hrows |].
  intros j row Hrow. rewrite forallb_forall in Hcols.
  apply Nat.eqb_eq, Hcols, list_elem_of_In. by eapply list_elem_of_lookup_2.
Qed.

(** X3: for a dataset that satisfies the shape invariant and has at least
    one source and one pool, the builder returns a matrix in which the cell
    of source i and pool j holds the number stored at row j, column i of the
    values matrix; no cell of the matrix is undefined. *)
Theorem heatmapData_valid_numeric (d : HeatmapJsonDataset) (cfg : bool) :
  shapeInvariant d = true →
  0 < length (sources d) → 0 < length (pools d) →
  ∃ r,
    heatmapData (Some d) cfg = Ok r
    ∧ (∀ i j, i < length (sources d) → j < length (pools d) →
         ∃ row v, valuesBps d !! j = Some row ∧ row !! i = Some v
                  ∧ data r !! (i * length (pools d) + j)
                    = Some [JNum (Z.of_nat i); JNum (Z.of_nat j); JNum v])
    ∧ (∀ item, item ∈ data r → ∃ z, jsIndex item 2 = JNum z).
Proof.
  intros [Hrows Hcols]%shapeInvariant_spec Hs Hp.
  destruct (heatmapData_built d cfg Hs Hp) as (r & Hr & Hlen & _ & _ & _ & _ & Hat);
    [lia |].
  assert (Hcell : ∀ i j, i < length (sources d) → j < length (pools d) →
            ∃ row v, valuesBps d !! j = Some row ∧ row !! i = Some v
                     ∧ data r !! (i * length (pools d) + j)
                       = Some [JNum (Z.of_nat i); JNum (Z.of_nat j); JNum v]).
  { intros i j Hi Hj. destruct (Hat i j Hi Hj) as (v & Hv & Hk).
    unfold valueAt in Hv.
    destruct (valuesBps d !! j) as [row |] eqn:Hrow; [| discriminate Hv].
    injection Hv as <-. unfold elemAt in Hk.
    destruct (lookup_lt_is_Some_2 row i) as [z Hz];
      [rewrite (Hcols j row Hrow); exact Hi |].
    rewrite Hz in Hk. exists row, z. auto. }
  exists r. split; [exact Hr |]. split; [exact Hcell |].
  intros item [k Hk]%list_elem_of_lookup_1.
  pose proof (lookup_lt_Some _ _ _ Hk) as Hlt. rewrite Hlen in Hlt.
  destruct (flat_position _ _ _ Hlt) as (Heq & Ha & Hb).
  destruct (Hcell _ _ Ha Hb) as (row & z & _ & _ & Hitem).
  rewrite <- Heq, Hk in Hitem. injection Hitem as ->. by exists z.
Qed.

Lemma heatmapData_valid_numeric_witness :
  ∃ r,
    heatmapData (Some twoByThree) false = Ok r
    ∧ data r !! 5 = Some [JNum 1; JNum 2; JNum 6]
    ∧ (∀ item, item ∈ data r → ∃ z, jsIndex item 2 = JNum z).
Proof.
  destruct (heatmapData_valid_numeric twoByThree false) as (r & Hr & Hcell & Hnum);
    [reflexivity | simpl; lia | simpl; lia |].
  exists r. split; [exact Hr |]. split; [| exact Hnum].
  destruct (Hcell 1 2) as (row & v & Hrow & Hv & Hk); [simpl; lia | simpl; lia |].
  injection Hrow as <-. injection Hv as <-. exact Hk.
Defined.

(** X4: the builder reads the values matrix only at rows below the number
    of pools and columns below the number of sources: two datasets with the
    same sources and pools whose matrices agree at those positions give the
    same matrix, whatever further rows, columns, token or date they hold. *)
Theorem heatmapData_reads_block_only (d d' : HeatmapJsonDataset) (cfg : bool) :
  sources d = sources d' → pools d = pools d' →
  0 < length (sources d) → 0 < length (pools d) →
  length (pools d) ≤ length (valuesBps d) →
  length (pools d) ≤ length (valuesBps d') →
  (∀ i j, i < length (sources d) → j < length (pools d) →
     valueAt (valuesBps d) j i = valueAt (valuesBps d') j i) →
  heatmapData (Some d) cfg = heatmapData (Some d') cfg.
Proof.
  intros Hsrc Hpls Hs Hp Hle Hle' Hagree.
  destruct (heatmapData_built d cfg Hs Hp Hle)
    as (r & Hr & Hlen & Hlp & Hf & Hx & Hy & Hat).
  destruct (heatmapData_built d' cfg) as (r' & Hr' & Hlen' & Hlp' & Hf' & Hx' & Hy' & Hat');
    [by rewrite <- Hsrc | by rewrite <- Hpls | by rewrite <- Hpls |].
  rewrite <- Hsrc, <- Hpls in *.
  rewrite Hr, Hr'. f_equal.
  assert (Hdata : data r = data r').
  { apply list_eq. intros k.
    destruct (decide (k < length (sources d) * length (pools d))) as [Hk | Hk].
    - destruct (flat_position _ _ _ Hk) as (Heq & Ha & Hb).
      destruct (Hat _ _ Ha Hb) as (v & Hv & Hitem).
      destruct (Hat' _ _ Ha Hb) as (v' & Hv' & Hitem').
      rewrite Hagree, Hv' in Hv by assumption. injection Hv as ->.
      rewrite <- Heq in Hitem, Hitem'. by rewrite Hitem, Hitem'.
    - rewrite !lookup_ge_None_2 by lia. reflexivity. }
  destruct r, r'. simpl in *. congruence.
Qed.

Lemma heatmapData_reads_block_only_witness :
  heatmapData (Some shortRow) false
  = heatmapData
      (Some {| token := "BTC"; sources := ["HYPERCORE"; "PYTH"]; pools := ["P1"];
               valuesBps := [[Int 7]; [Int 8; Int 9; Int 10]];
               updatedAt := "later" |}) false.
Proof.
  apply heatmapData_reads_block_only; simpl; try reflexivity; try lia.
  intros i j Hi Hj. assert (j = 0) as -> by lia. reflexivity.
Defined.

(** ** Formatters on the cells of a matrix *)

Lemma signed_bps_nonempty (engineDigits : Qc → string) (v : jsval) :
  (if gtZero v then "+" else "") +:+ toString engineDigits v +:+ " bps" ≠ "".
Proof.
  destruct (gtZero v); simpl; [discriminate |].
  destruct (toString engineDigits v); simpl; discriminate.
Qed.

Lemma heatmapData_item_triple
    (ds : option HeatmapJsonDataset) (cfg : bool) (r : HeatmapDataResult)
    (item : list jsval) :
  heatmapData ds cfg = Ok r → item ∈ data r →
  ∃ i j v, item = triple i j v ∧ i < lpSteps r ∧ j < fundingSteps r.
Proof.
  intros (d & Hr & Hs & Hp & Hle & _)%heatmapData_origin [k Hk]%list_elem_of_lookup_1.
  destruct (heatmapData_built d cfg Hs Hp Hle)
    as (r' & Hr' & Hlen & Hlp & Hf & _ & _ & Hat).
  rewrite Hr in Hr'. injection Hr' as <-.
  pose proof (lookup_lt_Some _ _ _ Hk) as Hlt. rewrite Hlen in Hlt.
  destruct (flat_position _ _ _ Hlt) as (Heq & Ha & Hb).
  destruct (Hat _ _ Ha Hb) as (v & _ & Hitem).
  rewrite <- Heq, Hk in Hitem. injection Hitem as ->.
  exists (k / length (pools d)), (k mod length (pools d)), v.
  rewrite Hlp, Hf. auto.
Qed.

(** X5: every cell of a matrix the builder returns passes the guard of the
    two formatters: its label is the signed value followed by ' bps' and is
    never empty, and its tooltip line is 'Spread: ' followed by the label. *)
Theorem heatmapData_cells_labelled
    (engineDigits : Qc → string)
    (ds : option HeatmapJsonDataset) (cfg : bool) (r : HeatmapDataResult)
    (item : list jsval) :
  heatmapData ds cfg = Ok r → item ∈ data r →
  validValue (cellParams item) = Some item
  ∧ labelFormatter engineDigits (cellParams item)
    = (if gtZero (jsIndex item 2) then "+" else "")
      +:+ toString engineDigits (jsIndex item 2) +:+ " bps"
  ∧ labelFormatter engineDigits (cellParams item) ≠ ""
  ∧ tooltipSpreadLine engineDigits (cellParams item)
    = "Spread: " +:+ labelFormatter engineDigits (cellParams item).
Proof.
  intros Hr Hin.
  destruct (heatmapData_item_triple ds cfg r item Hr Hin) as (i & j & v & -> & _).
  split; [reflexivity |].
  unfold labelFormatter, tooltipSpreadLine. simpl validValue. cbv iota beta.
  change (jsIndex (triple i j v) 2) with v.
  split; [reflexivity |]. split; [apply signed_bps_nonempty |].
  destruct (gtZero v); reflexivity.
Qed.

Lemma heatmapData_cells_labelled_witness :
  labelFormatter (λ _, "1e+21") (cellParams [JNum 1; JNum 0; JUndefined]) ≠ "".
Proof.
  refine (proj1 (proj2 (proj2 (heatmapData_cells_labelled (λ _, "1e+21")
            (Some shortRow) false
            {| data := [[JNum 0; JNum 0; JNum 7]; [JNum 1; JNum 0; JUndefined]];
               lpSteps := 2; fundingSteps := 1;
               xAxisLabels := ["HYPERCORE"; "PYTH"]; yAxisLabels := ["P1"] |}
            [JNum 1; JNum 0; JUndefined] _ _)))).
  - reflexivity.
  - simpl. apply list_elem_of_In. simpl. right. left. reflexivity.
Defined.

Lemma validValue_None (params : option Params) :
  validValue params = None
  ↔ params = None
    ∨ ∃ p, params = Some p
           ∧ (value p = None ∨ ∃ arr, value p = Some arr ∧ length arr < 3).
Proof.
  unfold validValue. split.
  - destruct params as [p |]; [| auto].
    intros H. right. exists p. split; [reflexivity |].
    destruct (value p) as [arr |]; [| auto].
    right. exists arr. split; [reflexivity |].
    destruct (Nat.ltb_spec (length arr) 3); [assumption | discriminate H].
  - intros [-> | (p & -> & [-> | (arr & -> & Hlt)])]; try reflexivity.
    by destruct (Nat.ltb_spec (length arr) 3); [| lia].
Qed.

(** X6: the label formatter and the tooltip line are the empty string
    exactly when the argument is null, its value is not an array, or the
    array has fewer than three elements; an array whose third element is
    undefined is labelled 'undefined bps', without a sign. *)
Theorem formatters_empty_iff (engineDigits : Qc → string) (params : option Params) :
  (labelFormatter engineDigits params = ""
   ↔ params = None
     ∨ ∃ p, params = Some p
            ∧ (value p = None ∨ ∃ arr, value p = Some arr ∧ length arr < 3))
  ∧ (tooltipSpreadLine engineDigits params = ""
     ↔ labelFormatter engineDigits params = "")
  ∧ (∀ arr, params = cellParams arr → arr !! 2 = Some JUndefined →
       labelFormatter engineDigits params = "undefined bps").
Proof.
  split; [| split].
  - rewrite <- validValue_None. unfold labelFormatter.
    destruct (validValue params) as [arr |]; split; try done.
    intros H. by apply signed_bps_nonempty in H.
  - unfold tooltipSpreadLine, labelFormatter.
    destruct (validValue params) as [arr |]; split; try done.
    intros H. by apply signed_bps_nonempty in H.
  - intros arr -> H2. unfold labelFormatter.
    destruct (validValue_third arr JUndefined H2) as [-> ->]. reflexivity.
Qed.

Lemma formatters_empty_iff_witness :
  labelFormatter (λ _, "1e+21") (cellParams [JNum 0; JNum 1]) = "".
Proof.
  apply (proj1 (formatters_empty_iff (λ _, "1e+21") (cellParams [JNum 0; JNum 1]))).
  right. eexists. split; [reflexivity |]. right. eexists.
  split; [reflexivity |]. simpl. lia.
Defined.

(** ** The colour range *)

Lemma ltQc_true (a b : Qc) : ltQc a b = true ↔ (a < b)%Qc.
Proof.
  unfold ltQc. rewrite Qclt_alt. destruct (a ?= b)%Qc; split; congruence.
Qed.

Lemma ltQc_false (a b : Qc) : ltQc a b = false ↔ (b ≤ a)%Qc.
Proof.
  split.
  - intros H. apply Qcnot_lt_le. intros Hlt%ltQc_true. congruence.
  - intros Hle. destruct (ltQc a b) eqn:H; [| reflexivity].
    apply ltQc_true in H. by apply Qcle_not_lt in Hle.
Qed.

Lemma ltNumber_irrefl (a : number) : ltNumber a a = false.
Proof. destruct a; simpl; try reflexivity. apply ltQc_false, Qcle_refl. Qed.

Lemma ltNumber_asym (a b : number) : ltNumber a b = true → ltNumber b a = false.
Proof.
  destruct a, b; simpl; try done.
  intros H%ltQc_true. by apply ltQc_false, Qclt_le_weak.
Qed.

(** "Not below" is transitive on numbers other than NaN. *)
Lemma not_below_trans (a b c : number) :
  a ≠ NaN → b ≠ NaN → c ≠ NaN →
  ltNumber b a = false → ltNumber c b = false → ltNumber c a = false.
Proof.
  destruct a, b, c; simpl; try done.
  intros _ _ _ H1%ltQc_false H2%ltQc_false.
  apply ltQc_false. by eapply Qcle_trans.
Qed.

Lemma below_infinity (x : number) :
  x ≠ NaN → ltNumber x PosInfinity = false → x = PosInfinity.
Proof. destruct x; simpl; done. Qed.

Lemma above_neg_infinity (x : number) :
  x ≠ NaN → ltNumber NegInfinity x = false → x = NegInfinity.
Proof. destruct x; simpl; done. Qed.

Lemma mathMinFrom_cons (lowest n : number) (rest : list number) :
  n ≠ NaN →
  mathMinFrom lowest (n :: rest)
  = mathMinFrom (if ltNumber n lowest then n else lowest) rest.
Proof. destruct n; done. Qed.

Lemma mathMaxFrom_cons (highest n : number) (rest : list number) :
  n ≠ NaN →
  mathMaxFrom highest (n :: rest)
  = mathMaxFrom (if ltNumber highest n then n else highest) rest.
Proof. destruct n; done. Qed.

(** The loop of [Math.min] on arguments without NaN: the result is not
    NaN, nothing is below it, and it is the start value or an argument. *)
Lemma mathMinFrom_spec (coerced : list number) :
  NaN ∉ coerced →
  ∀ lowest, lowest ≠ NaN →
    mathMinFrom lowest coerced ≠ NaN
    ∧ ltNumber lowest (mathMinFrom lowest coerced) = false
    ∧ (∀ n, n ∈ coerced → ltNumber n (mathMinFrom lowest coerced) = false)
    ∧ (mathMinFrom lowest coerced = lowest ∨ mathMinFrom lowest coerced ∈ coerced).
Proof.
  induction coerced as [| n rest IH]; intros Hnan lowest Hl.
  - simpl. split; [exact Hl |]. split; [apply ltNumber_irrefl |].
    split; [| by left]. intros n Hn. by apply elem_of_nil in Hn.
  - assert (Hn : n ≠ NaN) by (intros ->; apply Hnan, list_elem_of_here).
    assert (Hrest : NaN ∉ rest)
      by (intros H; by apply Hnan, list_elem_of_further).
    rewrite (mathMinFrom_cons lowest n rest Hn).
    destruct (ltNumber n lowest) eqn:Hlt.
    + destruct (IH Hrest n Hn) as (Hm & Hle & Hall & Hatt).
      set (m := mathMinFrom n rest) in *.
      split; [exact Hm |]. split; [| split].
      * apply (not_below_trans m n lowest Hm Hn Hl Hle).
        by apply ltNumber_asym.
      * intros n' [-> | Hin]%elem_of_cons; [exact Hle | by apply Hall].
      * right. destruct Hatt as [-> | Hin];
          [apply list_elem_of_here | by apply list_elem_of_further].
    + destruct (IH Hrest lowest Hl) as (Hm & Hle & Hall & Hatt).
      set (m := mathMinFrom lowest rest) in *.
      split; [exact Hm |]. split; [exact Hle |]. split.
      * intros n' [-> | Hin]%elem_of_cons; [| by apply Hall].
        by apply (not_below_trans m lowest n Hm Hl Hn).
      * destruct Hatt as [Heq | Hin];
          [by left | right; by apply list_elem_of_further].
Qed.

(** The loop of [Math.max], likewise: nothing is above the result. *)
Lemma mathMaxFrom_spec (coerced : list number) :
  NaN ∉ coerced →
  ∀ highest, highest ≠ NaN →
    mathMaxFrom highest coerced ≠ NaN
    ∧ ltNumber (mathMaxFrom highest coerced) highest = false
    ∧ (∀ n, n ∈ coerced → ltNumber (mathMaxFrom highest coerced) n = false)
    ∧ (mathMaxFrom highest coerced = highest
       ∨ mathMaxFrom highest coerced ∈ coerced).
Proof.
  induction coerced as [| n rest IH]; intros Hnan highest Hh.
  - simpl. split; [exact Hh |]. split; [apply ltNumber_irrefl |].
    split; [| by left]. intros n Hn. by apply elem_of_nil in Hn.
  - assert (Hn : n ≠ NaN) by (intros ->; apply Hnan, list_elem_of_here).
    assert (Hrest : NaN ∉ rest)
      by (intros H; by apply Hnan, list_elem_of_further).
    rewrite (mathMaxFrom_cons highest n rest Hn).
    destruct (ltNumber highest n) eqn:Hlt.
    + destruct (IH Hrest n Hn) as (Hm & Hle & Hall & Hatt).
      set (m := mathMaxFrom n rest) in *.
      split; [exact Hm |]. split; [| split].
      * apply (not_below_trans highest n m Hh Hn Hm); [| exact Hle].
        by apply ltNumber_asym.
      * intros n' [-> | Hin]%elem_of_cons; [exact Hle | by apply Hall].
      * right. destruct Hatt as [-> | Hin];
          [apply list_elem_of_here | by apply list_elem_of_further].
    + destruct (IH Hrest highest Hh) as (Hm & Hle & Hall & Hatt).
      set (m := mathMaxFrom highest rest) in *.
      split; [exact Hm |]. split; [exact Hle |]. split.
      * intros n' [-> | Hin]%elem_of_cons; [| by apply Hall].
        by apply (not_below_trans n highest m Hn Hh Hm).
      * destruct Hatt as [Heq | Hin];
          [by left | right; by apply list_elem_of_further].
Qed.

Lemma mathMinFrom_nan (coerced : list number) :
  NaN ∈ coerced → ∀ lowest, mathMinFrom lowest coerced = NaN.
Proof.
  induction coerced as [| n rest IH]; intros Hin lowest.
  - by apply elem_of_nil in Hin.
  - apply elem_of_cons in Hin as [<- | Hin]; [reflexivity |].
    destruct n; simpl; try reflexivity; by apply IH.
Qed.

Lemma mathMaxFrom_nan (coerced : list number) :
  NaN ∈ coerced → ∀ highest, mathMaxFrom highest coerced = NaN.
Proof.
  induction coerced as [| n rest IH]; intros Hin highest.
  - by apply elem_of_nil in Hin.
  - apply elem_of_cons in Hin as [<- | Hin]; [reflexivity |].
    destruct n; simpl; try reflexivity; by apply IH.
Qed.

Lemma elem_of_thirds (data : list (list jsval)) (v : jsval) :
  v ∈ map (λ d, jsIndex d 2) data ↔ ∃ item, item ∈ data ∧ jsIndex item 2 = v.
Proof.
  rewrite list_elem_of_In, in_map_iff. split.
  - intros (item & <- & Hin). exists item. by rewrite list_elem_of_In.
  - intros (item & Hin & <-). exists item. by rewrite <- list_elem_of_In.
Qed.

Lemma elem_of_coerced (data : list (list jsval)) (n : number) :
  n ∈ map toNumber (map (λ d, jsIndex d 2) data)
  ↔ ∃ item, item ∈ data ∧ toNumber (jsIndex item 2) = n.
Proof.
  rewrite list_elem_of_In, in_map_iff. split.
  - intros (v & <- & (item & Hin & <-)%list_elem_of_In%elem_of_thirds). eauto.
  - intros (item & Hin & <-). exists (jsIndex item 2). split; [reflexivity |].
    apply list_elem_of_In, elem_of_thirds. eauto.
Qed.

(** Minimum and maximum of a matrix that is not empty and whose cells are
    numbers other than NaN. *)
Lemma range_of_numbers (data : list (list jsval)) :
  data ≠ [] →
  (∀ item, item ∈ data → ∃ x, jsIndex item 2 = JNum x ∧ x ≠ NaN) →
  minBps data ≠ NaN ∧ maxBps data ≠ NaN
  ∧ (∃ item, item ∈ data ∧ jsIndex item 2 = JNum (minBps data))
  ∧ (∃ item, item ∈ data ∧ jsIndex item 2 = JNum (maxBps data))
  ∧ (∀ item x, item ∈ data → jsIndex item 2 = JNum x →
       ltNumber x (minBps data) = false ∧ ltNumber (maxBps data) x = false).
Proof.
  intros Hne Hnum. unfold minBps, maxBps, mathMin, mathMax.
  set (coerced := map toNumber (map (λ d, jsIndex d 2) data)).
  assert (Hnan : NaN ∉ coerced).
  { intros (item & Hin & Hn)%elem_of_coerced.
    destruct (Hnum item Hin) as (x & Hx & Hxn). rewrite Hx in Hn. done. }
  destruct (mathMinFrom_spec coerced Hnan PosInfinity) as (Hlo & _ & Hlo_all & Hlo_att);
    [done |].
  destruct (mathMaxFrom_spec coerced Hnan NegInfinity) as (Hhi & _ & Hhi_all & Hhi_att);
    [done |].
  assert (Hcell : ∀ item x, item ∈ data → jsIndex item 2 = JNum x → x ∈ coerced).
  { intros item x Hin Hx. apply elem_of_coerced. exists item. by rewrite Hx. }
  assert (Hback : ∀ n, n ∈ coerced → ∃ item, item ∈ data ∧ jsIndex item 2 = JNum n).
  { intros n (item & Hin & Hn)%elem_of_coerced.
    destruct (Hnum item Hin) as (x & Hx & _). rewrite Hx in Hn. simpl in Hn.
    exists item. by rewrite Hx, Hn. }
  destruct data as [| item0 rest]; [done |].
  destruct (Hnum item0) as (x0 & Hx0 & Hx0n); [apply list_elem_of_here |].
  assert (H0 : x0 ∈ coerced) by (by apply (Hcell item0); [apply list_elem_of_here |]).
  split; [exact Hlo |]. split; [exact Hhi |]. split; [| split].
  - destruct Hlo_att as [Heq | Hin]; [| by apply Hback].
    rewrite Heq. exists item0. split; [apply list_elem_of_here |].
    rewrite Hx0. f_equal. apply below_infinity; [exact Hx0n |].
    rewrite <- Heq. by apply Hlo_all.
  - destruct Hhi_att as [Heq | Hin]; [| by apply Hback].
    rewrite Heq. exists item0. split; [apply list_elem_of_here |].
    rewrite Hx0. f_equal. apply above_neg_infinity; [exact Hx0n |].
    rewrite <- Heq. by apply Hhi_all.
  - intros item x Hin Hx. pose proof (Hcell item x Hin Hx) as Hmem.
    split; [by apply Hlo_all | by apply Hhi_all].
Qed.

(** X7: for a matrix that is not empty and whose cells all hold numbers
    other than NaN (finite or infinite), the options effect gives the
    visual map a minimum and a maximum that are the values of two cells; no
    cell value is below the minimum or above the maximum. When all cells
    are integers the two bounds are integers between which every cell value
    lies. *)
Theorem visualMapRange_bounds (r : HeatmapDataResult) :
  data r ≠ [] →
  (∀ item, item ∈ data r → ∃ x, jsIndex item 2 = JNum x ∧ x ≠ NaN) →
  ∃ lo hi,
    visualMapRange r = Some (lo, hi)
    ∧ lo ≠ NaN ∧ hi ≠ NaN
    ∧ ltNumber hi lo = false
    ∧ (∃ item, item ∈ data r ∧ jsIndex item 2 = JNum lo)
    ∧ (∃ item, item ∈ data r ∧ jsIndex item 2 = JNum hi)
    ∧ (∀ item x, item ∈ data r → jsIndex item 2 = JNum x →
         ltNumber x lo = false ∧ ltNumber hi x = false)
    ∧ ((∀ item, item ∈ data r → ∃ z : Z, jsIndex item 2 = JNum z) →
       ∃ zlo zhi : Z,
         lo = Int zlo ∧ hi = Int zhi ∧ (zlo ≤ zhi)%Z
         ∧ ∀ item (z : Z), item ∈ data r → jsIndex item 2 = JNum z →
             (zlo ≤ z ≤ zhi)%Z).
Proof.
  intros Hne Hnum.
  destruct (range_of_numbers (data r) Hne Hnum)
    as (Hlo & Hhi & (ilo & Hilo & Hclo) & (ihi & Hihi & Hchi) & Hb).
  exists (minBps (data r)), (maxBps (data r)).
  unfold visualMapRange.
  destruct (Nat.eqb_spec (length (data r)) 0) as [H0 | _];
    [by apply nil_length_inv in H0 |].
  split; [reflexivity |]. split; [exact Hlo |]. split; [exact Hhi |].
  split; [exact (proj2 (Hb ilo _ Hilo Hclo)) |].
  split; [by exists ilo |]. split; [by exists ihi |]. split; [exact Hb |].
  intros Hint.
  destruct (Hint ilo Hilo) as [zlo Hzlo]. destruct (Hint ihi Hihi) as [zhi Hzhi].
  assert (Elo : minBps (data r) = Int zlo) by congruence.
  assert (Ehi : maxBps (data r) = Int zhi) by congruence.
  rewrite Elo, Ehi in Hb.
  assert (Hz : ∀ item (z : Z), item ∈ data r → jsIndex item 2 = JNum z →
            (zlo ≤ z ≤ zhi)%Z).
  { intros item z Hin Hcell. destruct (Hb item (Int z) Hin Hcell) as [H1 H2].
    simpl in H1, H2. rewrite ltQc_Z in H1, H2.
    apply Z.ltb_ge in H1, H2. lia. }
  exists zlo, zhi. split; [exact Elo |]. split; [exact Ehi |].
  split; [| exact Hz]. specialize (Hz ilo zlo Hilo Hzlo). lia.
Qed.

Lemma visualMapRange_bounds_witness :
  ∃ lo hi, visualMapRange defaultResult = Some (lo, hi)
           ∧ ltNumber (Int 37) lo = false ∧ ltNumber hi (Int (-8)) = false.
Proof.
  destruct (visualMapRange_bounds defaultResult)
    as (lo & hi & Hr & _ & _ & _ & _ & _ & Hb & _).
  - discriminate.
  - intros item Hin. apply list_elem_of_In in Hin. simpl in Hin.
    repeat (destruct Hin as [<- | Hin];
            [eexists; split; [reflexivity | discriminate] |]).
    destruct Hin.
  - exists lo, hi. split; [exact Hr |]. split.
    + apply (Hb [JNum 2; JNum 2; JNum 37]); [| reflexivity].
      apply list_elem_of_In. simpl. tauto.
    + apply (Hb [JNum 2; JNum 0; JNum (-8)]); [| reflexivity].
      apply list_elem_of_In. simpl. tauto.
Defined.



(** ** The polling effect: what an event can do to the displayed data *)

Lemma tryBlock_Some (o : FetchOutcome) (json : HeatmapJsonDataset) :
  tryBlock o = Some json →
  ∃ status, o = Response status (Some json) ∧ resOk status = true.
Proof.
  destruct o as [| status body]; simpl; [discriminate |].
  destruct (resOk status) eqn:Hok; [| discriminate].
  intros ->. by exists status.
Qed.

(** An event leaves the dataset and the timestamp alone, or it is the
    arrival of a document for a live run, or a failure of a live run. *)
Lemma step_view (s : State) (ev : Event) :
  (dataset (step s ev) = dataset s ∧ lastUpdatedAt (step s ev) = lastUpdatedAt s)
  ∨ (∃ r rq status json t,
       ev = Settle r (Response status (Some json)) t
       ∧ resOk status = true
       ∧ pending s !! r = Some rq
       ∧ cancelledOf s (requestEffect rq) = false
       ∧ dataset (step s ev) = Some json
       ∧ lastUpdatedAt (step s ev) = Some t)
  ∨ (∃ r rq o t,
       ev = Settle r o t
       ∧ tryBlock o = None
       ∧ pending s !! r = Some rq
       ∧ cancelledOf s (requestEffect rq) = false
       ∧ dataset (step s ev) = None
       ∧ lastUpdatedAt (step s ev) = lastUpdatedAt s).
Proof.
  destruct ev as [timer now | r o now | t now |]; simpl.
  - left. destruct (timers s !! timer) as [e |]; [| auto].
    destruct (fetchData_frame e now s) as (_ & _ & _ & _ & Hd & Hl & _). auto.
  - destruct (pending s !! r) as [rq |] eqn:Hr.
    + pose proof (resume_commit r rq o now s Hr) as Hc. simpl in Hc.
      destruct (cancelledOf s (requestEffect rq)) eqn:Hflag; [by left |].
      destruct (tryBlock o) as [json |] eqn:Ho.
      * destruct (tryBlock_Some o json Ho) as (status & -> & Hok).
        right. left. exists r, rq, status, json, now. destruct Hc. auto 10.
      * right. right. exists r, rq, o, now. destruct Hc. auto 10.
    + left. unfold resume. by rewrite Hr.
  - left. destruct (current s) as [e |]; [| auto].
    destruct (TokenType_eqb t (selectedToken s)); [auto |].
    rewrite runEffect_eq. simpl.
    destruct (cleanup_frame e s) as (_ & _ & _ & Hd & Hl). auto.
  - left. destruct (current s) as [e |]; [| auto]. simpl.
    destruct (cleanup_frame e s) as (_ & _ & _ & Hd & Hl). auto.
Qed.

(** X9: in every state the component can reach, exactly one interval is
    live while the component is mounted, namely the one whose id the
    current run of the effect holds, and that run is not cancelled; after
    the component has been unmounted no interval is live. *)
Theorem one_live_interval (s : State) :
  reachable s →
  match current s with
  | Some e =>
      ∃ c, effects s !! e = Some c
           ∧ isCancelled c = false
           ∧ timers s = {[intervalId c := e]}
  | None => timers s = ∅
  end.
Proof.
  intros Hs%consistent_reachable.
  destruct (current s) as [e |] eqn:He.
  - destruct (cons_current s Hs e He) as (c & Hc & Hlive & Htimer).
    exists c. split; [exact Hc |]. split; [exact Hlive |].
    apply map_eq. intros tid.
    destruct (decide (intervalId c = tid)) as [<- | Hne].
    + by rewrite lookup_singleton_eq.
    + rewrite lookup_singleton_ne by exact Hne.
      destruct (timers s !! tid) as [e' |] eqn:Ht; [| reflexivity].
      destruct (cons_timers s Hs tid e' Ht) as (Hcur & c' & Hc' & Hid).
      congruence.
  - apply map_empty. intros tid.
    destruct (timers s !! tid) as [e' |] eqn:Ht; [| reflexivity].
    destruct (cons_timers s Hs tid e' Ht) as (Hcur & _). congruence.
Qed.

Lemma one_live_interval_witness :
  ∃ c, effects afterTokenChange !! 1 = Some c
       ∧ isCancelled c = false
       ∧ timers afterTokenChange = {[intervalId c := 1]}.
Proof.
  refine (one_live_interval afterTokenChange _).
  exists 0%Z, [Settle 0 (Response 200 (Some hypeOld)) 40; Tick 1 5000; Select BTC 5100].
  reflexivity.
Defined.

(** Once unmounted, an event changes nothing but the set of requests in
    flight, which can only shrink. *)
Lemma unmounted_step (s : State) (ev : Event) :
  consistent s → current s = None →
  current (step s ev) = None
  ∧ dataset (step s ev) = dataset s
  ∧ lastUpdatedAt (step s ev) = lastUpdatedAt s
  ∧ selectedToken (step s ev) = selectedToken s
  ∧ (∀ r rq, pending (step s ev) !! r = Some rq → pending s !! r = Some rq).
Proof.
  intros Hs Hcur.
  assert (Hdrop : ∀ r rq, pending s !! r = Some rq →
            cancelledOf s (requestEffect rq) = true).
  { intros r rq Hr. apply cancelledOf_other; [exact Hs | | congruence].
    by apply (cons_pending s Hs r rq). }
  destruct (step_view s ev)
    as [[Hd Hl] | [(r & rq & st & j & t & _ & _ & Hr & Hflag & _)
                  | (r & rq & o & t & _ & _ & Hr & Hflag & _)]];
    [| rewrite (Hdrop r rq Hr) in Hflag; discriminate Hflag
     | rewrite (Hdrop r rq Hr) in Hflag; discriminate Hflag].
  rewrite Hd, Hl. clear Hd Hl.
  destruct ev as [timer now | r o now | t now |]; simpl; rewrite ?Hcur; auto.
  - destruct (timers s !! timer) as [e |] eqn:Ht; [| auto].
    destruct (cons_timers s Hs timer e Ht) as [Hc _]. congruence.
  - destruct (resume_frame r o now s) as (_ & _ & _ & Hc & Ht).
    rewrite Hc, Ht. repeat split; auto. intros r' rq. apply resume_pending.
Qed.

(** X10: after the component has been unmounted, whatever happens next (late
    responses of any kind, timer ticks, clicks), the dataset, the timestamp
    and the selected token stay as they were, no interval is live, no run is
    current, and no request is in flight that was not in flight before. *)
Theorem unmounted_is_inert (s : State) (evs : list Event) :
  reachable s →
  current (run (step s Unmount) evs) = None
  ∧ timers (run (step s Unmount) evs) = ∅
  ∧ dataset (run (step s Unmount) evs) = dataset s
  ∧ lastUpdatedAt (run (step s Unmount) evs) = lastUpdatedAt s
  ∧ selectedToken (run (step s Unmount) evs) = selectedToken s
  ∧ (∀ r rq, pending (run (step s Unmount) evs) !! r = Some rq →
       pending s !! r = Some rq).
Proof.
  intros Hs%consistent_reachable.
  assert (Hgen : ∀ evs' s1, consistent s1 → current s1 = None →
            consistent (run s1 evs')
            ∧ current (run s1 evs') = None
            ∧ dataset (run s1 evs') = dataset s1
            ∧ lastUpdatedAt (run s1 evs') = lastUpdatedAt s1
            ∧ selectedToken (run s1 evs') = selectedToken s1
            ∧ (∀ r rq, pending (run s1 evs') !! r = Some rq →
                 pending s1 !! r = Some rq)).
  { induction evs' as [| ev evs' IH]; intros s1 Hs1 Hc1; simpl; [auto 10 |].
    destruct (unmounted_step s1 ev Hs1 Hc1) as (Hc & Hd & Hl & Ht & Hp).
    destruct (IH (step s1 ev) (consistent_step s1 ev Hs1) Hc)
      as (Hs' & Hc' & Hd' & Hl' & Ht' & Hp').
    rewrite Hd', Hl', Ht', Hd, Hl, Ht. auto 10. }
  assert (H1 : current (step s Unmount) = None
               ∧ dataset (step s Unmount) = dataset s
               ∧ lastUpdatedAt (step s Unmount) = lastUpdatedAt s
               ∧ selectedToken (step s Unmount) = selectedToken s
               ∧ pending (step s Unmount) = pending s).
  { simpl. destruct (current s) as [e |] eqn:He; [| auto]. simpl.
    destruct (cleanup_frame e s) as (Hp & _ & Ht & Hd & Hl). auto. }
  destruct H1 as (Hc1 & Hd1 & Hl1 & Ht1 & Hp1).
  destruct (Hgen evs (step s Unmount) (consistent_step s Unmount Hs) Hc1)
    as (Hs' & Hc' & Hd' & Hl' & Ht' & Hp').
  rewrite Hd', Hl', Ht', Hd1, Hl1, Ht1. rewrite Hp1 in Hp'.
  repeat split; try done.
  apply map_empty. intros tid.
  destruct (timers (run (step s Unmount) evs) !! tid) as [e' |] eqn:Htid;
    [| reflexivity].
  destruct (cons_timers _ Hs' tid e' Htid) as [Hcur _]. congruence.
Qed.

Lemma unmounted_is_inert_witness :
  dataset (run (step afterFirstPoll Unmount)
             [Settle 1 (Response 200 (Some hypeNew)) 5100; Tick 1 10000;
              Select ETH 10100])
  = Some hypeOld.
Proof.
  refine (proj1 (proj2 (proj2 (unmounted_is_inert afterFirstPoll
            [Settle 1 (Response 200 (Some hypeNew)) 5100; Tick 1 10000;
             Select ETH 10100] _)))).
  exists 0%Z, [Settle 0 (Response 200 (Some hypeOld)) 40; Tick 1 5000].
  reflexivity.
Defined.

Lemma TokenType_eqb_eq (a b : TokenType) : TokenType_eqb a b = true ↔ a = b.
Proof. destruct a, b; simpl; split; congruence. Qed.

(** X11: a click on the tab of another token makes that token the selected
    one, starts a new current run and sends at once one request for the new
    token, stamped with the time of the click; the dataset and the timestamp
    of the previous token are not cleared by the click. A click on the tab
    of the selected token changes nothing. *)
Theorem select_other_token (s : State) (e : nat) (t : TokenType) (now : Z) :
  current s = Some e →
  (t ≠ selectedToken s →
     selectedToken (step s (Select t now)) = t
     ∧ current (step s (Select t now)) = Some (length (effects s))
     ∧ pending (step s (Select t now))
       = <[nextRequest s := {| requestEffect := length (effects s);
                               requestUrlOf := requestUrl t now |}]> (pending s)
     ∧ dataset (step s (Select t now)) = dataset s
     ∧ lastUpdatedAt (step s (Select t now)) = lastUpdatedAt s)
  ∧ (t = selectedToken s → step s (Select t now) = s).
Proof.
  intros He. simpl. rewrite He. split.
  - intros Hne.
    destruct (TokenType_eqb t (selectedToken s)) eqn:Heq;
      [by apply TokenType_eqb_eq in Heq |].
    rewrite runEffect_eq. simpl.
    destruct (cleanup_frame e s) as (Hp & Hlen & _ & Hd & Hl).
    unfold cleanup in *. destruct (effects s !! e) as [c |]; [| auto].
    destruct (negb (intervalId c =? 0)); simpl in *; rewrite Hlen; auto.
  - intros ->.
    by rewrite (proj2 (TokenType_eqb_eq (selectedToken s) (selectedToken s)) eq_refl).
Qed.

Lemma select_other_token_witness :
  selectedToken (step afterFirstPoll (Select ETH 6000)) = ETH
  ∧ dataset (step afterFirstPoll (Select ETH 6000)) = Some hypeOld
  ∧ pending (step afterFirstPoll (Select ETH 6000)) !! 2
    = Some {| requestEffect := 1; requestUrlOf := "/data/heatmap/eth.json?t=6000" |}.
Proof.
  destruct (select_other_token afterFirstPoll 0 ETH 6000) as [Hswitch _];
    [vm_compute; reflexivity |].
  destruct Hswitch as (Ht & _ & Hp & Hd & _);
    [vm_compute; intros H; discriminate H |].
  split; [exact Ht |]. split; [rewrite Hd; vm_compute; reflexivity |].
  rewrite Hp. vm_compute. reflexivity.
Defined.

(** *** Requests follow the token *)

Lemma fetchData_pending_url (e : nat) (now : Z) (s : State) (r : nat) (rq : Request) :
  pending (fetchData e now s) !! r = Some rq →
  pending s !! r = Some rq
  ∨ ∃ c, effects s !! e = Some c
         ∧ rq = {| requestEffect := e;
                   requestUrlOf := requestUrl (effectToken c) now |}.
Proof.
  unfold fetchData. destruct (effects s !! e) as [c |] eqn:He; simpl; [| auto].
  intros [[_ <-] | [_ Hold]]%lookup_insert_Some; [| auto].
  right. by exists c.
Qed.

Lemma cleanup_effect_token (e0 e : nat) (c : EffectClosure) (s : State) :
  effects s !! e = Some c →
  ∃ c', effects (cleanup e0 s) !! e = Some c' ∧ effectToken c' = effectToken c.
Proof.
  intros Hc. unfold cleanup.
  destruct (effects s !! e0) as [c0 |] eqn:H0; [| by exists c].
  assert (Hins : ∃ c',
            <[e0 := {| isCancelled := true; intervalId := intervalId c0;
                       effectToken := effectToken c0 |}]> (effects s) !! e = Some c'
            ∧ effectToken c' = effectToken c).
  { destruct (decide (e0 = e)) as [-> | Hne].
    - rewrite list_lookup_insert_eq by (by apply lookup_lt_Some in Hc).
      eexists. split; [reflexivity |]. simpl. congruence.
    - rewrite list_lookup_insert_ne by exact Hne. by exists c. }
  by destruct (negb (intervalId c0 =? 0)).
Qed.

Lemma requestsFollowRun_runEffect (now : Z) (s : State) :
  requestsFollowRun s →
  requestsFollowRun (runEffect now s) ∧ currentFollowsSelection (runEffect now s).
Proof.
  intros Hreq. rewrite runEffect_eq. split.
  - intros r rq. simpl.
    intros [[_ <-] | [_ Hold]]%lookup_insert_Some; simpl.
    + eexists _, now. split; [apply list_lookup_middle; reflexivity |]. reflexivity.
    + destruct (Hreq r rq Hold) as (c & t & Hc & Hurl).
      exists c, t. split; [| exact Hurl].
      rewrite lookup_app_l; [exact Hc | by apply lookup_lt_Some in Hc].
  - intros e c. simpl. intros [= <-].
    rewrite list_lookup_middle by reflexivity. by intros [= <-].
Qed.

Lemma requestsFollowRun_cleanup (e0 : nat) (s : State) :
  requestsFollowRun s → requestsFollowRun (cleanup e0 s).
Proof.
  intros Hreq r rq. rewrite (proj1 (cleanup_frame e0 s)). intros Hr.
  destruct (Hreq r rq Hr) as (c & t & Hc & Hurl).
  destruct (cleanup_effect_token e0 _ c s Hc) as (c' & Hc' & Htok).
  exists c', t. split; [exact Hc' |]. by rewrite Htok.
Qed.

Lemma follow_step (s : State) (ev : Event) :
  requestsFollowRun s → currentFollowsSelection s →
  requestsFollowRun (step s ev) ∧ currentFollowsSelection (step s ev).
Proof.
  intros Hreq Hcur. destruct ev as [timer now | r o now | t now |]; simpl.
  - destruct (timers s !! timer) as [e |]; [| auto].
    destruct (fetchData_frame e now s) as (He & _ & _ & Hc & _ & _ & Ht).
    split.
    + intros r rq [Hold | (c & Hc' & ->)]%fetchData_pending_url; rewrite He.
      * exact (Hreq r rq Hold).
      * by exists c, now.
    + intros e' c. rewrite Hc, He, Ht. exact (Hcur e' c).
  - destruct (resume_frame r o now s) as (He & _ & _ & Hc & Ht). split.
    + intros r' rq Hr'%resume_pending. rewrite He. exact (Hreq r' rq Hr').
    + intros e' c. rewrite Hc, He, Ht. exact (Hcur e' c).
  - destruct (current s) as [e |]; [| auto].
    destruct (TokenType_eqb t (selectedToken s)); [auto |].
    apply requestsFollowRun_runEffect.
    by apply (requestsFollowRun_cleanup e s) in Hreq.
  - destruct (current s) as [e |]; [| auto]. split.
    + by apply (requestsFollowRun_cleanup e s) in Hreq.
    + intros e' c H. discriminate H.
Qed.

Lemma follow_reachable (s : State) :
  reachable s → requestsFollowRun s ∧ currentFollowsSelection s.
Proof.
  intros (now & evs & ->).
  assert (Hgen : ∀ evs' s0,
            requestsFollowRun s0 → currentFollowsSelection s0 →
            requestsFollowRun (run s0 evs') ∧ currentFollowsSelection (run s0 evs')).
  { induction evs' as [| ev evs' IH]; intros s0 H1 H2; simpl; [auto |].
    destruct (follow_step s0 ev H1 H2) as [H1' H2']. by apply IH. }
  destruct (requestsFollowRun_runEffect now initial) as [H1 H2].
  { intros r rq H. simpl in H. by rewrite lookup_empty in H. }
  by apply Hgen.
Qed.

(** *** Timestamp and provenance of the dataset *)

Lemma timestamp_kept (s : State) (ev : Event) :
  is_Some (lastUpdatedAt s) → is_Some (lastUpdatedAt (step s ev)).
Proof.
  intros Hl.
  destruct (step_view s ev)
    as [[_ ->] | [(r & rq & st & j & t & _ & _ & _ & _ & _ & ->)
                 | (r & rq & o & t & _ & _ & _ & _ & _ & ->)]]; eauto.
Qed.

Lemma timestamp_with_dataset (s : State) (ev : Event) :
  (is_Some (dataset s) → is_Some (lastUpdatedAt s)) →
  is_Some (dataset (step s ev)) → is_Some (lastUpdatedAt (step s ev)).
Proof.
  intros Hinv.
  destruct (step_view s ev)
    as [[-> ->] | [(r & rq & st & j & t & _ & _ & _ & _ & _ & ->)
                  | (r & rq & o & t & _ & _ & _ & _ & -> & _)]].
  - exact Hinv.
  - eauto.
  - intros [x Hx]. discriminate Hx.
Qed.

(** X13: in every reachable state a held dataset comes with the time of a
    retrieval; and a timestamp, once set, is never cleared by any later
    event, so it stays on display when a failed fetch clears the dataset. *)
Theorem timestamp_never_cleared (s : State) (evs : list Event) :
  reachable s →
  (is_Some (dataset s) → is_Some (lastUpdatedAt s))
  ∧ (is_Some (lastUpdatedAt s) → is_Some (lastUpdatedAt (run s evs))).
Proof.
  intros (now & evs0 & ->). split.
  - assert (Hgen : ∀ evs' s0,
              (is_Some (dataset s0) → is_Some (lastUpdatedAt s0)) →
              is_Some (dataset (run s0 evs')) → is_Some (lastUpdatedAt (run s0 evs'))).
    { induction evs' as [| ev evs' IH]; intros s0 H0; simpl; [exact H0 |].
      apply IH. by apply timestamp_with_dataset. }
    apply Hgen. unfold mount. rewrite runEffect_eq. simpl.
    intros [x Hx]. discriminate Hx.
  - generalize (run (mount now) evs0). clear.
    induction evs as [| ev evs IH]; intros s Hl; simpl; [exact Hl |].
    apply IH. by apply timestamp_kept.
Qed.

Lemma timestamp_never_cleared_witness :
  dataset (run afterFirstPoll [Settle 1 (Response 500 None) 5100]) = None
  ∧ is_Some (lastUpdatedAt (run afterFirstPoll [Settle 1 (Response 500 None) 5100])).
Proof.
  split; [vm_compute; reflexivity |].
  refine (proj2 (timestamp_never_cleared afterFirstPoll
                   [Settle 1 (Response 500 None) 5100] _) _).
  - exists 0%Z, [Settle 0 (Response 200 (Some hypeOld)) 40; Tick 1 5000].
    reflexivity.
  - exists 40%Z. vm_compute. reflexivity.
Defined.

(** X14: a dataset held in a reachable state was delivered by a response in
    the history: some request settled with a success status and that very
    document as its body. *)
Theorem dataset_provenance (now : Z) (evs : list Event) (json : HeatmapJsonDataset) :
  dataset (run (mount now) evs) = Some json →
  ∃ r status t,
    Settle r (Response status (Some json)) t ∈ evs ∧ resOk status = true.
Proof.
  assert (Hgen : ∀ evs' s,
            dataset (run s evs') = Some json →
            dataset s = Some json
            ∨ ∃ r status t,
                Settle r (Response status (Some json)) t ∈ evs'
                ∧ resOk status = true).
  { induction evs' as [| ev evs' IH]; intros s Hd; simpl in Hd; [by left |].
    destruct (IH _ Hd) as [Hstep | (r & status & t & Hin & Hok)].
    - destruct (step_view s ev)
        as [[Heq _] | [(r & rq & st & j & t & -> & Hok & _ & _ & Hj & _)
                      | (r & rq & o & t & _ & _ & _ & _ & Hnone & _)]].
      + left. congruence.
      + right. exists r, st, t. split; [| exact Hok].
        assert (j = json) as -> by congruence. apply list_elem_of_here.
      + congruence.
    - right. exists r, status, t. split; [| exact Hok].
      by apply list_elem_of_further. }
  intros Hd. destruct (Hgen evs (mount now) Hd) as [Hmount | Hex]; [| exact Hex].
  unfold mount in Hmount. rewrite runEffect_eq in Hmount. discriminate Hmount.
Qed.

Lemma dataset_provenance_witness :
  ∃ r status t,
    Settle r (Response status (Some hypeOld)) t
      ∈ [Settle 0 (Response 200 (Some hypeOld)) 40; Tick 1 5000]
    ∧ resOk status = true.
Proof.
  apply (dataset_provenance 0 [Settle 0 (Response 200 (Some hypeOld)) 40; Tick 1 5000]).
  vm_compute. reflexivity.
Defined.

(** *** The address of a request *)





(** ** Palette and dark-mode flag of the component *)

(** X16: the palette the component uses and its dark-mode flag always
    describe the same theme: the palette is the one the resolver returns
    for the flag, the flag is set exactly for the resolved theme 'dark', and
    the light tooltip text '#f3f4f6' is chosen exactly when the palette is
    the dark one. *)
Theorem colors_agree_with_isDarkMode (resolvedTheme : option string) :
  getThemeColors resolvedTheme = getColorsByTheme (isDarkMode resolvedTheme)
  ∧ (isDarkMode resolvedTheme = true ↔ resolvedTheme = Some "dark")
  ∧ (tooltipTextColor resolvedTheme = "#f3f4f6"
     ↔ getThemeColors resolvedTheme = ThemeConfig.dark COLORS).
Proof.
  unfold tooltipTextColor, isDarkMode, getThemeColors. simpl AppThemes_value.
  destruct (decide (resolvedTheme = Some "dark")) as [Heq | Hne].
  - rewrite bool_decide_eq_true_2 by exact Heq. repeat split; auto.
  - rewrite bool_decide_eq_false_2 by exact Hne. repeat split; done.
Qed.

Lemma colors_agree_with_isDarkMode_witness :
  isDarkMode (Some "dark") = true.
Proof.
  apply (proj1 (proj2 (colors_agree_with_isDarkMode (Some "dark")))).
  reflexivity.
Defined.

(** ** The options effect on the matrices of the builder *)

Lemma thirds_numbers_or_not (data : list (list jsval)) :
  (∀ item, item ∈ data → ∃ x, jsIndex item 2 = JNum x ∧ x ≠ NaN)
  ∨ (∃ item, item ∈ data
             ∧ (jsIndex item 2 = JUndefined ∨ jsIndex item 2 = JNum NaN)).
Proof.
  induction data as [| item0 rest IH].
  - left. intros item Hin. by apply elem_of_nil in Hin.
  - destruct IH as [Hnum | (item & Hin & Hu)];
      [| right; exists item; split; [by apply list_elem_of_further | exact Hu]].
    destruct (jsIndex item0 2) as [x |] eqn:H0;
      [| right; exists item0; split; [apply list_elem_of_here | by left]].
    assert (Hx : x = NaN ∨ x ≠ NaN) by (destruct x; auto).
    destruct Hx as [-> | Hx];
      [right; exists item0; split; [apply list_elem_of_here | by right] |].
    left. intros item [-> | Hin]%elem_of_cons; [by exists x | by apply Hnum].
Qed.

(** X17: on a matrix the builder returns, the options effect never takes
    its early return. When every cell is a number other than NaN, the
    minimum and the maximum it gives the visual map are the values of two
    cells and neither is NaN; when some cell is undefined or NaN, both are
    NaN. A pair with exactly one NaN never occurs. *)
Theorem options_effect_always_composes
    (ds : option HeatmapJsonDataset) (cfg : bool) (r : HeatmapDataResult) :
  heatmapData ds cfg = Ok r →
  ((∀ item, item ∈ data r → ∃ x, jsIndex item 2 = JNum x ∧ x ≠ NaN)
   ∧ ∃ lo hi,
       visualMapRange r = Some (lo, hi)
       ∧ lo ≠ NaN ∧ hi ≠ NaN
       ∧ (∃ item, item ∈ data r ∧ jsIndex item 2 = JNum lo)
       ∧ (∃ item, item ∈ data r ∧ jsIndex item 2 = JNum hi))
  ∨ ((∃ item, item ∈ data r
              ∧ (jsIndex item 2 = JUndefined ∨ jsIndex item 2 = JNum NaN))
     ∧ visualMapRange r = Some (NaN, NaN)).
Proof.
  intros (d & Hr & Hs & Hp & Hle & _)%heatmapData_origin.
  destruct (heatmapData_built d cfg Hs Hp Hle) as (r' & Hr' & Hlen & _).
  rewrite Hr in Hr'. injection Hr' as <-.
  assert (Hpos : 0 < length (data r)) by nia.
  unfold visualMapRange.
  destruct (Nat.eqb_spec (length (data r)) 0) as [H0 | _]; [lia |].
  destruct (thirds_numbers_or_not (data r)) as [Hnum | (item & Hin & Hu)].
  - left. split; [exact Hnum |].
    assert (Hne : data r ≠ []) by (intros E; rewrite E in Hpos; simpl in Hpos; lia).
    destruct (range_of_numbers (data r) Hne Hnum) as (Hlo & Hhi & Hilo & Hihi & _).
    exists (minBps (data r)), (maxBps (data r)). auto.
  - right. split; [by exists item |].
    assert (Hnan : NaN ∈ map toNumber (map (λ d, jsIndex d 2) (data r))).
    { apply elem_of_coerced. exists item. split; [exact Hin |].
      by destruct Hu as [-> | ->]. }
    unfold minBps, maxBps, mathMin, mathMax.
    by rewrite mathMinFrom_nan, mathMaxFrom_nan.
Qed.

Lemma options_effect_always_composes_witness :
  ((∀ item, item ∈ data defaultResult → ∃ x, jsIndex item 2 = JNum x ∧ x ≠ NaN)
   ∧ ∃ lo hi,
       visualMapRange defaultResult = Some (lo, hi)
       ∧ lo ≠ NaN ∧ hi ≠ NaN
       ∧ (∃ item, item ∈ data defaultResult ∧ jsIndex item 2 = JNum lo)
       ∧ (∃ item, item ∈ data defaultResult ∧ jsIndex item 2 = JNum hi))
  ∨ ((∃ item, item ∈ data defaultResult
              ∧ (jsIndex item 2 = JUndefined ∨ jsIndex item 2 = JNum NaN))
     ∧ visualMapRange defaultResult = Some (NaN, NaN)).
Proof.
  apply (options_effect_always_composes None false defaultResult).
  reflexivity.
Defined.

(** ** Polls overlap *)

Lemma requestsNumbered_step (s : State) (ev : Event) :
  requestsNumbered s → requestsNumbered (step s ev).
Proof.
  intros Hnum. destruct ev as [timer now | r o now | t now |]; simpl.
  - destruct (timers s !! timer) as [e |]; [| exact Hnum].
    unfold fetchData. destruct (effects s !! e) as [c |]; [| exact Hnum].
    intros r rq. simpl. intros [[<- _] | [_ Hold]]%lookup_insert_Some; [lia |].
    specialize (Hnum r rq Hold). lia.
  - intros r' rq Hr'. pose proof (resume_pending r o now s r' rq Hr') as Hold.
    specialize (Hnum r' rq Hold).
    unfold resume. destruct (pending s !! r); [| exact Hnum].
    destruct (tryBlock o); destruct (negb _); simpl; exact Hnum.
  - destruct (current s) as [e |]; [| exact Hnum].
    destruct (TokenType_eqb t (selectedToken s)); [exact Hnum |].
    rewrite runEffect_eq. intros r rq. simpl.
    assert (Hn : nextRequest (cleanup e s) = nextRequest s).
    { unfold cleanup. destruct (effects s !! e) as [c |]; [| reflexivity].
      by destruct (negb _). }
    rewrite (proj1 (cleanup_frame e s)), Hn.
    intros [[<- _] | [_ Hold]]%lookup_insert_Some; [lia |].
    specialize (Hnum r rq Hold). lia.
  - destruct (current s) as [e |]; [| exact Hnum].
    intros r rq. simpl. rewrite (proj1 (cleanup_frame e s)).
    unfold cleanup. destruct (effects s !! e) as [c |]; [| apply Hnum].
    destruct (negb _); simpl; apply Hnum.
Qed.

Lemma requestsNumbered_reachable (s : State) : reachable s → requestsNumbered s.
Proof.
  intros (now & evs & ->).
  assert (Hgen : ∀ evs' s0, requestsNumbered s0 → requestsNumbered (run s0 evs')).
  { induction evs' as [| ev evs' IH]; intros s0 H0; simpl; [exact H0 |].
    apply IH. by apply requestsNumbered_step. }
  apply Hgen. unfold mount. rewrite runEffect_eq. intros r rq. simpl.
  intros [[<- _] | [_ Hold]]%lookup_insert_Some; [lia |].
  by rewrite lookup_empty in Hold.
Qed.

(** X18: while the component is mounted, each tick of the live interval
    sends one more request for the selected token and leaves every request
    already in flight where it is: a poll does not wait for, replace or
    cancel the previous one. The dataset is not touched by the tick. *)
Theorem tick_adds_request (s : State) (e : nat) (now : Z) :
  reachable s →
  current s = Some e →
  ∃ timer,
    timers s !! timer = Some e
    ∧ pending s !! nextRequest s = None
    ∧ pending (step s (Tick timer now))
      = <[nextRequest s := {| requestEffect := e;
                              requestUrlOf := requestUrl (selectedToken s) now |}]>
          (pending s)
    ∧ (∀ r rq, pending s !! r = Some rq →
         pending (step s (Tick timer now)) !! r = Some rq)
    ∧ dataset (step s (Tick timer now)) = dataset s.
Proof.
  intros Hreach He.
  pose proof (consistent_reachable s Hreach) as Hs.
  pose proof (requestsNumbered_reachable s Hreach) as Hnum.
  destruct (follow_reachable s Hreach) as [_ Hcur].
  destruct (cons_current s Hs e He) as (c & Hc & _ & Htimer).
  assert (Hfresh : pending s !! nextRequest s = None).
  { destruct (pending s !! nextRequest s) as [rq |] eqn:Hr; [| reflexivity].
    specialize (Hnum _ rq Hr). lia. }
  exists (intervalId c). split; [exact Htimer |]. split; [exact Hfresh |].
  simpl. rewrite Htimer. unfold fetchData. rewrite Hc. simpl.
  rewrite (Hcur e c He Hc). split; [reflexivity |]. split; [| reflexivity].
  intros r rq Hr. rewrite lookup_insert_ne; [exact Hr |].
  intros <-. congruence.
Qed.

Lemma tick_adds_request_witness :
  ∃ timer,
    timers twoInFlight !! timer = Some 0
    ∧ pending twoInFlight !! 2 = None
    ∧ pending (step twoInFlight (Tick timer 10000))
      = <[2 := {| requestEffect := 0;
                  requestUrlOf := requestUrl HYPE 10000 |}]> (pending twoInFlight)
    ∧ (∀ r rq, pending twoInFlight !! r = Some rq →
         pending (step twoInFlight (Tick timer 10000)) !! r = Some rq)
    ∧ dataset (step twoInFlight (Tick timer 10000)) = dataset twoInFlight.
Proof.
  refine (tick_adds_request twoInFlight 0 10000 _ _).
  - exists 0%Z, [Tick 1 5000]. reflexivity.
  - vm_compute. reflexivity.
Defined.

(** ** The address of a request in flight *)

Lemma cleanup_nextRequest (e : nat) (s : State) :
  nextRequest (cleanup e s) = nextRequest s.
Proof.
  unfold cleanup. destruct (effects s !! e) as [c |]; [| reflexivity].
  by destruct (negb _).
Qed.

(** X12: in every reachable state each request in flight has the address
    /data/heatmap/<token in lower case>.json?t=<time> of the token its run
    was started for, and a request of the current run asks for the selected
    token. A request is in flight after an event only if it was in flight
    before, with the same address, or the event is a tick or a tab click
    that has just sent it: then it belongs to the current run and its
    address carries the selected token and the time of that very event. The
    request sent on mount carries HYPE and the time of the mount. *)
Theorem live_requests_target_selected_token (s : State) :
  reachable s →
  (∀ r rq, pending s !! r = Some rq →
     (∃ (c : EffectClosure) (now : Z),
        effects s !! requestEffect rq = Some c
        ∧ requestUrlOf rq
          = "/data/heatmap/" +:+ toLowerCase (TokenType_value (effectToken c))
            +:+ ".json?t=" +:+ pretty now)
     ∧ (current s = Some (requestEffect rq) →
          ∃ now, requestUrlOf rq = requestUrl (selectedToken s) now))
  ∧ (∀ ev r rq, pending (step s ev) !! r = Some rq →
       pending s !! r = Some rq
       ∨ (pending s !! r = None
          ∧ ∃ now, issueTime ev = Some now
                   ∧ current (step s ev) = Some (requestEffect rq)
                   ∧ requestUrlOf rq = requestUrl (selectedToken (step s ev)) now))
  ∧ (∀ now0,
       pending (mount now0)
       = {[0 := {| requestEffect := 0; requestUrlOf := requestUrl HYPE now0 |}]}).
Proof.
  intros Hreach.
  pose proof (consistent_reachable s Hreach) as Hs.
  pose proof (requestsNumbered_reachable s Hreach) as Hnum.
  destruct (follow_reachable s Hreach) as [Hreq Hcur].
  assert (Hfresh : pending s !! nextRequest s = None).
  { destruct (pending s !! nextRequest s) as [rq |] eqn:Hr; [| reflexivity].
    specialize (Hnum _ rq Hr). lia. }
  split; [| split].
  - intros r rq Hr. destruct (Hreq r rq Hr) as (c & now & Hc & Hurl). split.
    + exists c, now. split; [exact Hc | exact Hurl].
    + intros He. exists now. by rewrite <- (Hcur _ c He Hc).
  - intros ev r rq. destruct ev as [timer now | r' o now | t now |]; simpl.
    + destruct (timers s !! timer) as [e |] eqn:Ht; [| auto].
      destruct (cons_timers s Hs timer e Ht) as (He & c & Hc & _).
      unfold fetchData. rewrite Hc. simpl.
      intros [[<- <-] | [_ Hold]]%lookup_insert_Some; [| by left].
      right. split; [exact Hfresh |]. exists now. simpl.
      split; [reflexivity |]. split; [exact He |].
      by rewrite (Hcur e c He Hc).
    + intros Hold%resume_pending. by left.
    + destruct (current s) as [e |] eqn:He; [| auto].
      destruct (TokenType_eqb t (selectedToken s)); [auto |].
      rewrite runEffect_eq. simpl.
      rewrite cleanup_nextRequest, (proj1 (cleanup_frame e s)).
      intros [[<- <-] | [_ Hold]]%lookup_insert_Some; [| by left].
      right. split; [exact Hfresh |]. exists now. simpl. auto.
    + destruct (current s) as [e |] eqn:He; [| auto]. simpl.
      rewrite (proj1 (cleanup_frame e s)). auto.
  - intros now0. unfold mount. rewrite runEffect_eq. simpl.
    apply insert_empty.
Qed.

Lemma live_requests_target_selected_token_witness :
  pending afterTokenChange !! 2
  = Some {| requestEffect := 1; requestUrlOf := "/data/heatmap/btc.json?t=5100" |}
  ∧ (pending afterFirstPoll !! 2 = None
     ∧ ∃ now, issueTime (Select BTC 5100) = Some now
              ∧ current afterTokenChange = Some 1
              ∧ "/data/heatmap/btc.json?t=5100"
                = requestUrl (selectedToken afterTokenChange) now).
Proof.
  assert (Hp : pending afterTokenChange !! 2
               = Some {| requestEffect := 1;
                         requestUrlOf := "/data/heatmap/btc.json?t=5100" |})
    by (vm_compute; reflexivity).
  split; [exact Hp |].
  destruct (live_requests_target_selected_token afterFirstPoll) as (_ & Hstep & _).
  - exists 0%Z, [Settle 0 (Response 200 (Some hypeOld)) 40; Tick 1 5000].
    reflexivity.
  - destruct (Hstep (Select BTC 5100) 2 _ Hp) as [Hold | Hnew].
    + vm_compute in Hold. discriminate Hold.
    + exact Hnew.
Defined.
